(** * rpi_camera_livestream: the [LiveStream] class of [lib/rpi-cam.js]

    A shallow embedding of the controller class and of the parts of its
    collaborators (the camera module, the express application, the HTTP
    clients) that the class talks to, followed by the properties of the
    specification that were checked against it.

    Conventions of the embedding.
    - JavaScript strings are [string]s whose characters are the code units
      of the ASCII range; the case mappings and the white space set below
      are the ASCII restrictions of the ECMAScript ones.
    - JavaScript numbers are restricted to the integer-valued ones and
      [NaN]; [-0] and [+0] are identified.  A parsed numeral is kept as the
      mathematical integer it denotes: the double nearest to it compares
      with the (small, exactly representable) bounds of the setters in the
      same way, and only values within those bounds are ever stored.
    - Console output (verbose logging, the port warning) is not part of the
      modelled state. *)

From Stdlib Require Import ZArith List String Ascii Bool Lia.
From Stdlib.Strings Require Import Byte.
Import ListNotations.

Local Open Scope string_scope.
Local Open Scope Z_scope.

(* ================================================================== *)
(** * A fragment of ECMAScript *)
(* ================================================================== *)

Module JS.

(** ** Values *)

Inductive number : Type :=
| NaN
| Int (z : Z).

Inductive value : Type :=
| VUndefined
| VNull
| VBool (b : bool)
| VNum (n : number)
| VStr (s : string).

(** [a < b] and [a > b] on numbers: every comparison with [NaN] is false. *)
Definition lt (a b : number) : bool :=
  match a, b with
  | Int x, Int y => x <? y
  | _, _ => false
  end.

Definition gt (a b : number) : bool := lt b a.

(** ToBoolean. *)
Definition truthy (v : value) : bool :=
  match v with
  | VUndefined | VNull => false
  | VBool b => b
  | VNum NaN => false
  | VNum (Int z) => negb (z =? 0)
  | VStr s => negb (String.eqb s "")
  end.

(** [v === 1]. *)
Definition strict_eq_one (v : value) : bool :=
  match v with
  | VNum (Int 1) => true
  | _ => false
  end.

(** A parameter with a default initialiser: the default is taken when the
    argument is [undefined] (or absent). *)
Definition default_arg (v d : value) : value :=
  match v with
  | VUndefined => d
  | _ => v
  end.

(** ** Strings *)

Definition code (c : ascii) : Z := Z.of_N (N_of_ascii c).
Definition char (z : Z) : ascii := ascii_of_N (Z.to_N z).

(** White space and line terminators of the ASCII range:
    TAB, LF, VT, FF, CR and SP. *)
Definition is_white_space (c : ascii) : bool :=
  let n := code c in ((9 <=? n) && (n <=? 13)) || (n =? 32).

Fixpoint trim_start (s : string) : string :=
  match s with
  | String c r => if is_white_space c then trim_start r else s
  | EmptyString => EmptyString
  end.

Fixpoint trim_end (s : string) : string :=
  match s with
  | String c r =>
      let r' := trim_end r in
      if is_white_space c && String.eqb r' "" then "" else String c r'
  | EmptyString => EmptyString
  end.

(** [s.trim()] *)
Definition trim (s : string) : string := trim_end (trim_start s).

Fixpoint map_string (f : ascii -> ascii) (s : string) : string :=
  match s with
  | String c r => String (f c) (map_string f r)
  | EmptyString => EmptyString
  end.

Definition upper_char (c : ascii) : ascii :=
  let n := code c in
  if (97 <=? n) && (n <=? 122) then char (n - 32) else c.

Definition lower_char (c : ascii) : ascii :=
  let n := code c in
  if (65 <=? n) && (n <=? 90) then char (n + 32) else c.

(** [s.toUpperCase()] and [s.toLowerCase()] *)
Definition toUpperCase : string -> string := map_string upper_char.
Definition toLowerCase : string -> string := map_string lower_char.

(** [s.startsWith('/')] *)
Definition starts_with_slash (s : string) : bool :=
  match s with
  | String "/"%char _ => true
  | _ => false
  end.

(** [a.includes(x)] on an array of strings. *)
Definition includes (a : list string) (x : string) : bool :=
  existsb (String.eqb x) a.

(** [a.join(sep)] on an array of strings. *)
Fixpoint join (sep : string) (a : list string) : string :=
  match a with
  | [] => ""
  | [x] => x
  | x :: r => x ++ sep ++ join sep r
  end.

(** ** Numerals *)

Definition digit_char (d : Z) : ascii := char (48 + d).

(** The decimal numeral of a non-negative integer, most significant digit
    first, prepended to [acc]. *)
Fixpoint digits_fuel (fuel : nat) (n : Z) (acc : string) : string :=
  match fuel with
  | O => acc
  | S f =>
      let acc' := String (digit_char (n mod 10)) acc in
      if n <? 10 then acc' else digits_fuel f (n / 10) acc'
  end.

Definition decimal (n : Z) : string :=
  digits_fuel (S (Z.to_nat (Z.log2 n))) n "".

(** The value of [c] as a digit in the given radix (10 or 16 here). *)
Definition digit_value (radix : Z) (c : ascii) : option Z :=
  let n := code c in
  let d :=
    if (48 <=? n) && (n <=? 57) then n - 48
    else if (97 <=? n) && (n <=? 122) then n - 87
    else if (65 <=? n) && (n <=? 90) then n - 55
    else radix in
  if d <? radix then Some d else None.

(** The longest prefix of [s] made of radix digits, read as a numeral;
    [acc] is what has been read so far ([None]: nothing yet). *)
Fixpoint parse_digits (radix : Z) (s : string) (acc : option Z) : option Z :=
  match s with
  | String c r =>
      match digit_value radix c with
      | Some d =>
          parse_digits radix r
            (Some (radix * match acc with Some a => a | None => 0 end + d))
      | None => acc
      end
  | EmptyString => acc
  end.

(** [parseInt(s)] on a string, without a radix argument: leading white
    space is skipped, a sign is read, a [0x]/[0X] prefix selects radix 16,
    and the digits up to the first character that is not one are read;
    the result is [NaN] when there is no digit. *)
Definition parseInt_string (s : string) : number :=
  let s1 := trim_start s in
  let '(sign, s2) :=
    match s1 with
    | String c r =>
        if Ascii.eqb c "-" then (-1, r)
        else if Ascii.eqb c "+" then (1, r)
        else (1, s1)
    | EmptyString => (1, s1)
    end in
  let '(radix, s3) :=
    match s2 with
    | String c (String x r) =>
        if Ascii.eqb c "0" && (Ascii.eqb x "x" || Ascii.eqb x "X")
        then (16, r)
        else (10, s2)
    | _ => (10, s2)
    end in
  match parse_digits radix s3 None with
  | Some m => Int (sign * m)
  | None => NaN
  end.

(** ** Number to string

    [Number::toString] picks the shortest digit string [s] (with [k]
    digits) and the exponent [n] such that [s * 10^(n-k)] rounds to the
    number; it prints plain digits when [n <= 21] and exponent notation
    otherwise.  Every integer up to [2^53] is a double and is its own
    shortest numeral. *)

(** Rounding of a non-negative integer to the nearest double (53-bit
    significand, ties to even). *)
Definition round53 (m : Z) : Z :=
  let e := Z.log2 m - 52 in
  if e <=? 0 then m
  else
    let q := Z.shiftr m e in
    let r := m - Z.shiftl q e in
    let half := Z.shiftl 1 (e - 1) in
    let q' :=
      if r <? half then q
      else if half <? r then q + 1
      else if Z.even q then q else q + 1 in
    Z.shiftl q' e.

Definition num_digits (x : Z) : Z := Z.of_nat (String.length (decimal x)).

(** The [(s, n)] with [k] digits that round to [x], nearest first. *)
Definition candidates (x k : Z) : list (Z * Z) :=
  let d := num_digits x in
  let ok (sn : Z * Z) :=
    let '(s, n) := sn in
    (10 ^ (k - 1) <=? s) && (s <? 10 ^ k)
    && (round53 (s * 10 ^ (n - k)) =? x) in
  let dist (sn : Z * Z) := Z.abs (fst sn * 10 ^ (snd sn - k) - x) in
  let all :=
    flat_map (fun n => [(x / 10 ^ (n - k), n); (x / 10 ^ (n - k) + 1, n)])
             [d; d + 1] in
  let good := filter ok all in
  match good with
  | [] => []
  | c :: r =>
      [fold_left (fun best sn => if dist sn <? dist best then sn else best)
                 r c]
  end.

(** The shortest digit string: the least [k] in [k0 .. k0 + fuel - 1] that
    has a candidate. *)
Fixpoint shortest_from (fuel : nat) (x k : Z) : option (Z * Z * Z) :=
  match fuel with
  | O => None
  | S f =>
      match candidates x k with
      | (s, n) :: _ => Some (s, n, k)
      | [] => shortest_from f x (k + 1)
      end
  end.

Definition shortest (x : Z) : option (Z * Z * Z) := shortest_from 17 x 1.

Fixpoint zeros (n : nat) : string :=
  match n with
  | O => ""
  | S m => String "0"%char (zeros m)
  end.

(** The string of a non-negative integer-valued number. *)
Definition nonneg_to_string (x : Z) : string :=
  if x <=? 2 ^ 53 then decimal x
  else
    match shortest x with
    | Some (s, n, k) =>
        if n <=? 21 then decimal s ++ zeros (Z.to_nat (n - k))
        else
          match decimal s with
          | String d rest =>
              String d (if k =? 1 then "" else "." ++ rest)
              ++ "e+" ++ decimal (n - 1)
          | EmptyString => ""
          end
    | None => decimal x (* not a double: outside the numbers of JavaScript *)
    end.

Definition number_to_string (n : number) : string :=
  match n with
  | NaN => "NaN"
  | Int z => if z <? 0 then "-" ++ nonneg_to_string (- z) else nonneg_to_string z
  end.

(** ToString on the primitive values. *)
Definition to_string (v : value) : string :=
  match v with
  | VUndefined => "undefined"
  | VNull => "null"
  | VBool true => "true"
  | VBool false => "false"
  | VNum n => number_to_string n
  | VStr s => s
  end.

(** [parseInt(v)]: the argument is converted to a string first. *)
Definition parseInt (v : value) : number := parseInt_string (to_string v).

End JS.

Import JS.

(* ================================================================== *)
(** * Results of calls *)
(* ================================================================== *)

(** What a call can throw: [new Error(msg)] from the class itself, the
    engine's [TypeError] and [ReferenceError], and whatever a collaborator
    (the camera module, express) raises. *)
Inductive exn : Type :=
| Error (msg : string)
| TypeError (msg : string)
| ReferenceError (msg : string)
| External (msg : string).

(** The result of a synchronous call. *)
Inductive result (A : Type) : Type :=
| Ok (a : A)
| Throw (e : exn).
Arguments Ok {A} a.
Arguments Throw {A} e.

(** The state of a promise returned by an asynchronous call. *)
Inductive promise (A : Type) : Type :=
| Resolved (a : A)
| Rejected (e : exn)
| Pending.
Arguments Resolved {A} a.
Arguments Rejected {A} e.
Arguments Pending {A}.

Definition bytes : Type := list byte.

(* ================================================================== *)
(** * The class [LiveStream]: fields and synchronous methods *)
(* ================================================================== *)

(** An express application: one handed over by the caller, or the [n]-th
    one that the class created for itself. *)
Inductive app : Type :=
| ExternalApp (id : nat)
| OwnApp (n : nat).

Record Server : Type := mkServer {
  server_app : option app;
  server_port : number
}.

Record Config : Type := mkConfig {
  width : number;
  height : number;
  fps : number;
  encoding : string;
  quality : number
}.

Record StreamStatus : Type := mkStatus {
  started : bool;
  paused : bool;
  stopped : bool
}.

(** The camera module, once required. *)
Inductive camera_module : Type := CameraNative.

(** The array-valued properties of the global object, by name. *)
Definition global_object : Type := list (string * list string).

Fixpoint get_global (g : global_object) (x : string) : option (list string) :=
  match g with
  | [] => None
  | (y, a) :: r => if String.eqb x y then Some a else get_global r x
  end.

Module LiveStream.

Record obj : Type := mk {
  camera : option camera_module;
  server : Server;
  config : Config;
  mimeType : option string;
  pathname : string;
  lastFrame : option bytes;
  verboseMode : bool;
  streamStatus : StreamStatus
}.

Definition with_server (sv : Server) (o : obj) : obj :=
  mk (camera o) sv (config o) (mimeType o) (pathname o) (lastFrame o)
     (verboseMode o) (streamStatus o).
Definition with_config (c : Config) (o : obj) : obj :=
  mk (camera o) (server o) c (mimeType o) (pathname o) (lastFrame o)
     (verboseMode o) (streamStatus o).
Definition with_mimeType (m : option string) (o : obj) : obj :=
  mk (camera o) (server o) (config o) m (pathname o) (lastFrame o)
     (verboseMode o) (streamStatus o).
Definition with_pathname (p : string) (o : obj) : obj :=
  mk (camera o) (server o) (config o) (mimeType o) p (lastFrame o)
     (verboseMode o) (streamStatus o).
Definition with_lastFrame (f : option bytes) (o : obj) : obj :=
  mk (camera o) (server o) (config o) (mimeType o) (pathname o) f
     (verboseMode o) (streamStatus o).
Definition with_verboseMode (b : bool) (o : obj) : obj :=
  mk (camera o) (server o) (config o) (mimeType o) (pathname o) (lastFrame o)
     b (streamStatus o).
Definition with_camera (c : option camera_module) (o : obj) : obj :=
  mk c (server o) (config o) (mimeType o) (pathname o) (lastFrame o)
     (verboseMode o) (streamStatus o).
Definition with_streamStatus (s : StreamStatus) (o : obj) : obj :=
  mk (camera o) (server o) (config o) (mimeType o) (pathname o) (lastFrame o)
     (verboseMode o) s.

(** [static supportedEncodingTypes] *)
Definition supportedEncodingTypes : list string :=
  ["JPEG"; "GIF"; "PNG"; "PPM"; "TGA"; "BMP"].

Definition default_config : Config :=
  mkConfig (Int 1280) (Int 720) (Int 16) "JPEG" (Int 25).

(** [constructor(config = {...})] *)
Definition new (config : Config) : obj :=
  mk None (mkServer None (Int 8000)) config None "/live.stream" None false
     (mkStatus false false false).

(** [register(app, port = null)] *)
Definition register (a : option app) (port : value) (this : obj) : obj :=
  let port := default_arg port VNull in
  let sv := mkServer a (server_port (server this)) in
  let sv := mkServer (server_app sv)
              (if truthy port then parseInt port else server_port sv) in
  with_server sv this.

(** [setPort(port)]; the warning goes to the console only. *)
Definition setPort (port : value) (this : obj) : obj :=
  with_server (mkServer (server_app (server this)) (parseInt port)) this.

(** [setPathname(src)] *)
Definition setPathname (src : string) (this : obj) : obj :=
  with_pathname (if starts_with_slash src then trim src else "/" ++ trim src)
                this.

(** [setVerboseMode(mode)] *)
Definition setVerboseMode (mode : value) (this : obj) : obj :=
  with_verboseMode (truthy mode) this.

Definition width_message (maxWidth : number) (v : value) : string :=
  "[-] Maximum width must between 32 and " ++ number_to_string maxWidth
  ++ " for v" ++ to_string v ++ " cameras.".

(** [setWidth(width, v = 2)] *)
Definition setWidth (w v : value) (this : obj) : result obj :=
  let v := default_arg v (VNum (Int 2)) in
  let widthVal := parseInt w in
  let maxWidth := if strict_eq_one v then Int 2592 else Int 3280 in
  if lt widthVal (Int 32) || gt widthVal maxWidth
  then Throw (Error (width_message maxWidth v))
  else
    let c := config this in
    Ok (with_config
          (mkConfig widthVal (height c) (fps c) (encoding c) (quality c)) this).

Definition height_message (maxHeight : number) (v : value) : string :=
  "[-] Maximum height must between 16 and " ++ number_to_string maxHeight
  ++ " for v" ++ to_string v ++ " cameras.".

(** [setHeight(height, v = 2)] *)
Definition setHeight (h v : value) (this : obj) : result obj :=
  let v := default_arg v (VNum (Int 2)) in
  let heightVal := parseInt h in
  let maxHeight := if strict_eq_one v then Int 1944 else Int 2464 in
  if lt heightVal (Int 16) || gt heightVal maxHeight
  then Throw (Error (height_message maxHeight v))
  else
    let c := config this in
    Ok (with_config
          (mkConfig (width c) heightVal (fps c) (encoding c) (quality c)) this).

Definition fps_message : string := "[-] FPS value must between 1 and 90.".

(** [setFPS(fps)] *)
Definition setFPS (f : value) (this : obj) : result obj :=
  let fpsVal := parseInt f in
  if lt fpsVal (Int 1) || gt fpsVal (Int 90)
  then Throw (Error fps_message)
  else
    let c := config this in
    Ok (with_config
          (mkConfig (width c) (height c) fpsVal (encoding c) (quality c)) this).

Definition encoding_message (encVal : string) : string :=
  "[-] Encoding type '" ++ encVal ++ "' is not supported.".

(** [setEncoding(encoding)].  The method's body names the list by the bare
    identifier [supportedEncodingTypes].  A static field is a property of
    the class, not a binding of the class body, and neither the method
    (whose bindings are [encoding] and [encVal]) nor the module (whose
    only declaration is the class) binds that name: the identifier is
    resolved on the global object, and evaluating it throws a
    [ReferenceError] when the global object has no such property. *)
Definition setEncoding (globals : global_object) (enc : string) (this : obj)
  : result obj :=
  let encVal := toUpperCase (trim enc) in
  match get_global globals "supportedEncodingTypes" with
  | None => Throw (ReferenceError "supportedEncodingTypes is not defined")
  | Some types =>
      if negb (includes types encVal)
      then Throw (Error (encoding_message encVal))
      else
        let c := config this in
        let this :=
          with_config
            (mkConfig (width c) (height c) (fps c) encVal (quality c)) this in
        Ok (with_mimeType (Some ("image/" ++ toLowerCase encVal)) this)
  end.

Definition quality_message : string :=
  "[-] Quality value must between 1 and 100.".

(** [setQuality(quality)] *)
Definition setQuality (q : value) (this : obj) : result obj :=
  let qltyVal := parseInt q in
  if lt qltyVal (Int 1) || gt qltyVal (Int 100)
  then Throw (Error quality_message)
  else
    let c := config this in
    Ok (with_config
          (mkConfig (width c) (height c) (fps c) (encoding c) qltyVal) this).

Definition last_frame_message : string :=
  "[-] Last frame cannot be captured because the livestream has not started yet".

(** [getLastFrame()] *)
Definition getLastFrame (this : obj) : result (option bytes) :=
  if negb (started (streamStatus this))
  then Throw (Error last_frame_message)
  else Ok (lastFrame this).

(** [Buffer.from(b).toString('base64')] *)
Definition base64_alphabet : string :=
  "ABCDEFGHIJKLMNOPQRSTUVWXYZabcdefghijklmnopqrstuvwxyz0123456789+/".

Definition base64_char (i : Z) : ascii :=
  match String.get (Z.to_nat i) base64_alphabet with
  | Some c => c
  | None => "="%char
  end.

Definition byte_val (b : byte) : Z := Z.of_N (Byte.to_N b).

Fixpoint base64 (l : bytes) : string :=
  match l with
  | [] => ""
  | [a] =>
      let n := Z.shiftl (byte_val a) 16 in
      String (base64_char (Z.land (Z.shiftr n 18) 63))
        (String (base64_char (Z.land (Z.shiftr n 12) 63)) "==")
  | [a; b] =>
      let n := Z.lor (Z.shiftl (byte_val a) 16) (Z.shiftl (byte_val b) 8) in
      String (base64_char (Z.land (Z.shiftr n 18) 63))
        (String (base64_char (Z.land (Z.shiftr n 12) 63))
           (String (base64_char (Z.land (Z.shiftr n 6) 63)) "="))
  | a :: b :: c :: r =>
      let n := Z.lor (Z.lor (Z.shiftl (byte_val a) 16)
                            (Z.shiftl (byte_val b) 8)) (byte_val c) in
      String (base64_char (Z.land (Z.shiftr n 18) 63))
        (String (base64_char (Z.land (Z.shiftr n 12) 63))
           (String (base64_char (Z.land (Z.shiftr n 6) 63))
              (String (base64_char (Z.land n 63)) (base64 r))))
  end.

(** A template literal prints [null] for the null value. *)
Definition nullable_to_string (s : option string) : string :=
  match s with
  | Some x => x
  | None => "null"
  end.

(** [getSnapshot()]: the promise it returns is settled by its executor. *)
Definition getSnapshot (this : obj) : promise (option string) :=
  match lastFrame this with
  | Some frame =>
      Resolved
        (Some ("data:" ++ nullable_to_string (mimeType this) ++ ";base64,"
               ++ base64 frame))
  | None => Resolved None
  end.

(** [getSupportedEncodingTypes()] *)
Definition getSupportedEncodingTypes (this : obj) : string :=
  join "," supportedEncodingTypes.

End LiveStream.

(* ================================================================== *)
(** * The controller in its environment *)
(* ================================================================== *)

(** An HTTP connection: the request and its response. *)
Definition client : Type := nat.

(** What is written to a response. *)
Inductive chunk : Type :=
| Head (status : Z) (headers : list (string * string))
| Text (s : string)
| Data (b : bytes).

(** A call on the camera module. *)
Inductive camera_call : Type :=
| CamStart (c : Config)
| CamPause
| CamResume
| CamStop.

(** A route registered with [app.get(path, handler)]. *)
Record route : Type := mkRoute {
  route_app : app;
  route_path : string
}.

(** The controller object together with what it has done to its
    collaborators.  Lists grow at the end: oldest entry first. *)
Record World : Type := mkWorld {
  self : LiveStream.obj;
  globals : global_object;
  apps_created : nat;               (* calls of [express()] *)
  listening : list (app * number);  (* calls of [app.listen(port, ...)] *)
  routes : list route;              (* calls of [app.get(...)] *)
  start_resolved : list (nat * string);
    (* the [start()] promises that are resolved, each named by the index
       of the route its [#listen] registered, with the URL *)
  subscribers : list client;        (* frame handlers on the camera's emitter *)
  written : list (client * chunk);  (* [res.writeHead] and [res.write] *)
  camera_calls : list camera_call
}.

Definition with_self (o : LiveStream.obj) (w : World) : World :=
  mkWorld o (globals w) (apps_created w) (listening w) (routes w)
          (start_resolved w) (subscribers w) (written w) (camera_calls w).
Definition with_subscribers (l : list client) (w : World) : World :=
  mkWorld (self w) (globals w) (apps_created w) (listening w) (routes w)
          (start_resolved w) l (written w) (camera_calls w).
Definition with_written (l : list (client * chunk)) (w : World) : World :=
  mkWorld (self w) (globals w) (apps_created w) (listening w) (routes w)
          (start_resolved w) (subscribers w) l (camera_calls w).
Definition with_routes (l : list route) (w : World) : World :=
  mkWorld (self w) (globals w) (apps_created w) (listening w) l
          (start_resolved w) (subscribers w) (written w) (camera_calls w).
Definition with_start_resolved (l : list (nat * string)) (w : World) : World :=
  mkWorld (self w) (globals w) (apps_created w) (listening w) (routes w)
          l (subscribers w) (written w) (camera_calls w).
Definition with_camera_calls (l : list camera_call) (w : World) : World :=
  mkWorld (self w) (globals w) (apps_created w) (listening w) (routes w)
          (start_resolved w) (subscribers w) (written w) l.
Definition with_listening (l : list (app * number)) (w : World) : World :=
  mkWorld (self w) (globals w) (apps_created w) l (routes w)
          (start_resolved w) (subscribers w) (written w) (camera_calls w).
Definition with_apps_created (n : nat) (w : World) : World :=
  mkWorld (self w) (globals w) n (listening w) (routes w)
          (start_resolved w) (subscribers w) (written w) (camera_calls w).

(** A process whose global object is [g], right after [new LiveStream(c)]. *)
Definition boot (g : global_object) (c : Config) : World :=
  mkWorld (LiveStream.new c) g 0 [] [] [] [] [] [].

(** How a call that takes a completion callback ends: the callback fires
    (once), the call throws, or the callback never fires. *)
Inductive completion : Type :=
| Completes
| Fails (e : exn)
| Hangs.

(** What the environment does during one [start()]. *)
Record start_env : Type := mkStartEnv {
  env_require : option exn;   (* what [require] of the camera module throws *)
  env_express : option exn;   (* what [require('express')] or [express()] throws *)
  env_listen : completion;    (* [app.listen(port, callback)] *)
  env_camera : completion     (* [camera.start(config, callback)] *)
}.

Definition null_call (m : string) : exn :=
  TypeError ("Cannot read properties of null (reading '" ++ m ++ "')").

Definition set_status (s : StreamStatus) (w : World) : World :=
  with_self (LiveStream.with_streamStatus s (self w)) w.

(** [#initialize()] *)
Definition initialize (env : start_env) (w : World) : World * promise unit :=
  match env_require env with
  | Some e => (w, Rejected e)
  | None =>
      let w := with_self (LiveStream.with_camera (Some CameraNative) (self w)) w in
      let sv := LiveStream.server (self w) in
      match server_app sv with
      | None =>
          match env_express env with
          | Some e => (w, Rejected e)
          | None =>
              let a := OwnApp (apps_created w) in
              let w := with_apps_created (S (apps_created w)) w in
              let w :=
                with_self
                  (LiveStream.with_server (mkServer (Some a) (server_port sv))
                     (self w)) w in
              match env_listen env with
              | Fails e => (w, Rejected e)
              | Hangs =>
                  (with_listening (listening w ++ [(a, server_port sv)])%list w,
                   Pending)
              | Completes =>
                  (with_listening (listening w ++ [(a, server_port sv)])%list w,
                   Resolved tt)
              end
          end
      | Some _ => (w, Resolved tt)
      end
  end.

(** [#listen()]: the promise it returns is resolved by the route's handler,
    that is, by the first request. *)
Definition listen (w : World) : World * promise string :=
  match server_app (LiveStream.server (self w)) with
  | None => (w, Rejected (null_call "get"))
  | Some a =>
      (with_routes
         (routes w ++ [mkRoute a (LiveStream.pathname (self w))])%list w,
       Pending)
  end.

Definition start_message : string :=
  "[-] The stream cannot be started after it has been stopped".

(** [start()] up to the registration of the route. *)
Definition start (env : start_env) (w : World) : World * promise string :=
  if stopped (LiveStream.streamStatus (self w))
  then (w, Rejected (Error start_message))
  else
    match initialize env w with
    | (w, Rejected e) => (w, Rejected e)
    | (w, Pending) => (w, Pending)
    | (w, Resolved _) =>
        match LiveStream.camera (self w) with
        | None => (w, Rejected (null_call "start"))
        | Some _ =>
            match env_camera env with
            | Fails e => (w, Rejected e)
            | Hangs =>
                (with_camera_calls
                   (camera_calls w ++ [CamStart (LiveStream.config (self w))])%list
                   w, Pending)
            | Completes =>
                let w :=
                  with_camera_calls
                    (camera_calls w ++ [CamStart (LiveStream.config (self w))])%list
                    w in
                let st := LiveStream.streamStatus (self w) in
                let w := set_status (mkStatus true (paused st) (stopped st)) w in
                (* the promise of [#listen] stays pending, and with it the
                   one of [start]; a rejected [#listen] has no handler *)
                (fst (listen w), Pending)
            end
        end
    end.

Definition pause_message : string :=
  "[-] The stream cannot be paused because it has not been started yet".

(** [pause()] *)
Definition pause (cb : completion) (w : World) : World * promise unit :=
  let st := LiveStream.streamStatus (self w) in
  if negb (started st) then (w, Rejected (Error pause_message))
  else
    match LiveStream.camera (self w) with
    | None => (w, Rejected (null_call "pause"))
    | Some _ =>
        match cb with
        | Fails e => (w, Rejected e)
        | Hangs => (with_camera_calls (camera_calls w ++ [CamPause])%list w, Pending)
        | Completes =>
            let w := with_camera_calls (camera_calls w ++ [CamPause])%list w in
            (set_status (mkStatus (started st) true (stopped st)) w, Resolved tt)
        end
    end.

Definition resume_message : string :=
  "[-] The stream cannot be resumed because it has not been paused".

(** [resume()] *)
Definition resume (cb : completion) (w : World) : World * promise unit :=
  let st := LiveStream.streamStatus (self w) in
  if negb (paused st) then (w, Rejected (Error resume_message))
  else
    match LiveStream.camera (self w) with
    | None => (w, Rejected (null_call "resume"))
    | Some _ =>
        match cb with
        | Fails e => (w, Rejected e)
        | Hangs => (with_camera_calls (camera_calls w ++ [CamResume])%list w, Pending)
        | Completes =>
            let w := with_camera_calls (camera_calls w ++ [CamResume])%list w in
            (set_status (mkStatus (started st) false (stopped st)) w, Resolved tt)
        end
    end.

Definition stop_message : string :=
  "[-] The stream cannot be stopped because it has not been started yet".

(** [stop()] *)
Definition stop (cb : completion) (w : World) : World * promise unit :=
  let st := LiveStream.streamStatus (self w) in
  if negb (started st) then (w, Rejected (Error stop_message))
  else
    match LiveStream.camera (self w) with
    | None => (w, Rejected (null_call "stop"))
    | Some _ =>
        match cb with
        | Fails e => (w, Rejected e)
        | Hangs => (with_camera_calls (camera_calls w ++ [CamStop])%list w, Pending)
        | Completes =>
            let w := with_camera_calls (camera_calls w ++ [CamStop])%list w in
            let w := set_status (mkStatus (started st) (paused st) true) w in
            let st := LiveStream.streamStatus (self w) in
            let w := set_status (mkStatus false (paused st) (stopped st)) w in
            (with_self (LiveStream.with_camera None (self w)) w, Resolved tt)
        end
    end.

(** ** Requests, frames and disconnections *)

Definition app_eqb (a b : app) : bool :=
  match a, b with
  | ExternalApp i, ExternalApp j => Nat.eqb i j
  | OwnApp i, OwnApp j => Nat.eqb i j
  | _, _ => false
  end.

(** The index of the first route of [a] for [path]: express runs the
    handlers of a path in the order of their registration, and the handler
    of this class never passes the request on.  Paths are compared as
    they are written. *)
Fixpoint find_route (a : app) (path : string) (i : nat) (l : list route)
  : option nat :=
  match l with
  | [] => None
  | r :: l' =>
      if app_eqb (route_app r) a && String.eqb (route_path r) path
      then Some i
      else find_route a path (S i) l'
  end.

Definition stream_headers : list (string * string) :=
  [("Cache-Control",
    "no-store, no-cache, must-revalidate, pre-check=0, post-check=0, max-age=0");
   ("Pragma", "no-cache");
   ("Connection", "close");
   ("Content-Type", "multipart/x-mixed-replace; boundary=--livestream")].

Definition stream_url (ip : string) (o : LiveStream.obj) : string :=
  "http://" ++ ip ++ ":"
  ++ number_to_string (server_port (LiveStream.server o))
  ++ LiveStream.pathname o.

Definition is_resolved (i : nat) (l : list (nat * string)) : bool :=
  existsb (fun p => Nat.eqb (fst p) i) l.

(** The handler of the route, run for the request of client [c] that
    reaches the route of index [i]. *)
Definition handle_request (i : nat) (c : client) (hostname : string)
  (w : World) : World :=
  let w := with_written (written w ++ [(c, Head 200 stream_headers)])%list w in
  match LiveStream.camera (self w) with
  | None => w (* [this.camera.on] throws: the handler ends here *)
  | Some _ =>
      let w := with_subscribers (subscribers w ++ [c])%list w in
      if is_resolved i (start_resolved w) then w
      else
        with_start_resolved
          (start_resolved w ++ [(i, stream_url hostname (self w))])%list w
  end.

(** A GET request for [path] arrives at application [a]. *)
Definition request (a : app) (path : string) (c : client) (hostname : string)
  (w : World) : World :=
  match find_route a path 0 (routes w) with
  | Some i => handle_request i c hostname w
  | None => w
  end.

(** The client closes its connection: its frame handler is removed. *)
Definition close (c : client) (w : World) : World :=
  with_subscribers (filter (fun d => negb (Nat.eqb d c)) (subscribers w)) w.

Definition newline : string := String (char 10) "".

Definition part_header (mime : option string) (len : nat) : string :=
  "--livestream" ++ newline
  ++ "Content-Type: " ++ LiveStream.nullable_to_string mime ++ newline
  ++ "Content-length: " ++ decimal (Z.of_nat len) ++ newline ++ newline.

(** [frameHandler(frameData)] of the connection [c]; [write_fails] tells
    whether [res.write] throws.  It returns the new state and the handler's
    result. *)
Definition frameHandler (c : client) (write_fails : bool) (frameData : bytes)
  (w : World) : World * bool :=
  let w := with_self (LiveStream.with_lastFrame (Some frameData) (self w)) w in
  if write_fails then (w, false)
  else
    (with_written
       (written w
        ++ [(c, Text (part_header (LiveStream.mimeType (self w))
                        (List.length frameData)));
            (c, Data frameData)])%list w,
     true).

(** The camera emits a frame: every subscribed handler runs, in the order
    of subscription. *)
Definition emit_frame (frameData : bytes) (write_fails : client -> bool)
  (w : World) : World :=
  fold_left (fun w c => fst (frameHandler c (write_fails c) frameData w))
            (subscribers w) w.

(** ** One step of the system *)

Inductive op : Type :=
| Register (a : option app) (port : value)
| SetPort (port : value)
| SetPathname (src : string)
| SetVerboseMode (mode : value)
| SetWidth (w v : value)
| SetHeight (h v : value)
| SetFPS (f : value)
| SetEncoding (enc : string)
| SetQuality (q : value)
| GetLastFrame
| GetSnapshot
| GetSupportedEncodingTypes
| Start (env : start_env)
| Pause (cb : completion)
| Resume (cb : completion)
| Stop (cb : completion)
| Request (a : app) (path : string) (c : client) (hostname : string)
| Close (c : client)
| Frame (frameData : bytes) (write_fails : client -> bool).

Inductive returned : Type :=
| RUndefined
| RBuffer (b : option bytes)
| RString (s : option string).

(** What the caller of a step observes. *)
Inductive outcome : Type :=
| Returns (v : returned)
| Throws (e : exn)
| Promise (p : promise returned)
| Event.

Definition lift_setter (r : result LiveStream.obj) (w : World)
  : World * outcome :=
  match r with
  | Ok o => (with_self o w, Returns RUndefined)
  | Throw e => (w, Throws e)
  end.

Definition lift_promise {A : Type} (f : A -> returned) (r : World * promise A)
  : World * outcome :=
  (fst r,
   Promise match snd r with
           | Resolved a => Resolved (f a)
           | Rejected e => Rejected e
           | Pending => Pending
           end).

Definition step (o : op) (w : World) : World * outcome :=
  match o with
  | Register a port =>
      (with_self (LiveStream.register a port (self w)) w, Returns RUndefined)
  | SetPort port =>
      (with_self (LiveStream.setPort port (self w)) w, Returns RUndefined)
  | SetPathname src =>
      (with_self (LiveStream.setPathname src (self w)) w, Returns RUndefined)
  | SetVerboseMode mode =>
      (with_self (LiveStream.setVerboseMode mode (self w)) w, Returns RUndefined)
  | SetWidth x v => lift_setter (LiveStream.setWidth x v (self w)) w
  | SetHeight x v => lift_setter (LiveStream.setHeight x v (self w)) w
  | SetFPS x => lift_setter (LiveStream.setFPS x (self w)) w
  | SetEncoding x =>
      lift_setter (LiveStream.setEncoding (globals w) x (self w)) w
  | SetQuality x => lift_setter (LiveStream.setQuality x (self w)) w
  | GetLastFrame =>
      match LiveStream.getLastFrame (self w) with
      | Ok b => (w, Returns (RBuffer b))
      | Throw e => (w, Throws e)
      end
  | GetSnapshot =>
      lift_promise RString (w, LiveStream.getSnapshot (self w))
  | GetSupportedEncodingTypes =>
      (w, Returns (RString (Some (LiveStream.getSupportedEncodingTypes (self w)))))
  | Start env => lift_promise (fun u => RString (Some u)) (start env w)
  | Pause cb => lift_promise (fun _ => RUndefined) (pause cb w)
  | Resume cb => lift_promise (fun _ => RUndefined) (resume cb w)
  | Stop cb => lift_promise (fun _ => RUndefined) (stop cb w)
  | Request a path c hostname => (request a path c hostname w, Event)
  | Close c => (close c w, Event)
  | Frame frameData write_fails => (emit_frame frameData write_fails w, Event)
  end.

(** A run: the steps are taken one after the other, each lifecycle call
    being settled (or left pending for good) before the next step. *)
Fixpoint run (ops : list op) (w : World) : World :=
  match ops with
  | [] => w
  | o :: r => run r (fst (step o w))
  end.

(** ** The lifecycle state read off the status flags *)

Inductive lifecycle : Type := Idle | Started | Paused | Stopped.

Definition lifecycle_of (s : StreamStatus) : lifecycle :=
  if stopped s then Stopped
  else if started s then (if paused s then Paused else Started)
  else Idle.

Definition state (w : World) : lifecycle :=
  lifecycle_of (LiveStream.streamStatus (self w)).

(** ** The kinds of error of the specification *)

Fixpoint prefix_of (p s : string) : bool :=
  match p, s with
  | EmptyString, _ => true
  | String a p', String b s' => Ascii.eqb a b && prefix_of p' s'
  | String _ _, EmptyString => false
  end.

(** A ValidationError is an [Error] thrown by one of the config setters. *)
Definition is_validation_error (e : exn) : bool :=
  match e with
  | Error m =>
      prefix_of "[-] Maximum width must between 32 and " m
      || prefix_of "[-] Maximum height must between 16 and " m
      || String.eqb m LiveStream.fps_message
      || prefix_of "[-] Encoding type '" m
      || String.eqb m LiveStream.quality_message
  | _ => false
  end.

(** A LifecycleError is an [Error] thrown by one of the state guards. *)
Definition is_lifecycle_error (e : exn) : bool :=
  match e with
  | Error m =>
      existsb (String.eqb m)
        [start_message; pause_message; resume_message; stop_message;
         LiveStream.last_frame_message]
  | _ => false
  end.

(* ================================================================== *)
(** * Definitions used by the statements *)
(* ================================================================== *)

(** A decimal digit, and a string that starts with one (or is empty). *)
Definition is_digit (c : ascii) : bool := (48 <=? code c) && (code c <=? 57).

Definition head_is_digit (s : string) : Prop :=
  match s with
  | String c _ => is_digit c = true
  | EmptyString => True
  end.

(** What [parse_digits] has read so far, as a number. *)
Definition read (a : option Z) : Z :=
  match a with
  | Some x => x
  | None => 0
  end.

(** The global object of a Node process as far as this class is concerned:
    it has no array-valued property that the class could name. *)
Definition node_globals : global_object := [].

(** An environment in which every collaborator does its work. *)
Definition ok_env : start_env := mkStartEnv None None Completes Completes.

(** The camera handle and the status flags. *)
Definition core (w : World) : option camera_module * StreamStatus :=
  (LiveStream.camera (self w), LiveStream.streamStatus (self w)).

(** The started flag implies a camera handle, and the stopped flag
    excludes the started flag. *)
Definition consistent (w : World) : Prop :=
  (started (snd (core w)) = true -> fst (core w) <> None)
  /\ (stopped (snd (core w)) = true -> started (snd (core w)) = false).

(** The controller after a completed [stop()]. *)
Definition halted (w : World) : Prop :=
  stopped (snd (core w)) = true
  /\ started (snd (core w)) = false
  /\ fst (core w) = None.

(** What holds of every state the controller can reach: a resolved
    [start()] has its route, a route was registered with the started flag
    set, only a completed [stop()] clears that flag, and it sets the
    stopped flag and drops the camera handle. *)
Definition invariant (w : World) : Prop :=
  (start_resolved w <> [] -> routes w <> [])
  /\ (routes w <> [] ->
      started (snd (core w)) = true \/ stopped (snd (core w)) = true)
  /\ consistent w.

(** A lifecycle call, as opposed to a setter, a getter or an event. *)
Definition is_lifecycle_op (o : op) : bool :=
  match o with
  | Start _ | Pause _ | Resume _ | Stop _ => true
  | _ => false
  end.

(* ================================================================== *)
(** * Definitions used by the further statements *)
(* ================================================================== *)

(** A lifecycle call during which the camera and the web server do their
    work: nothing throws and every callback fires. *)
Definition cooperative (o : op) : bool :=
  match o with
  | Start (mkStartEnv None None Completes Completes) => true
  | Pause Completes | Resume Completes | Stop Completes => true
  | _ => false
  end.

(** The state machine that the guards and the callbacks of the four
    lifecycle methods implement on the status flags: the state after an
    accepted call, [None] for a call that the guard rejects. *)
Definition lifecycle_table (o : op) (s : lifecycle) : option lifecycle :=
  match o, s with
  | Start _, Idle => Some Started
  | Start _, Started => Some Started
  | Start _, Paused => Some Paused
  | Start _, Stopped => None
  | Pause _, Started => Some Paused
  | Pause _, Paused => Some Paused
  | Pause _, _ => None
  | Resume _, Paused => Some Started
  | Resume _, _ => None
  | Stop _, Started => Some Stopped
  | Stop _, Paused => Some Stopped
  | Stop _, _ => None
  | _, _ => Some s
  end.

(** The paused flag is set only together with the started or the stopped
    flag, and the stopped flag only without a camera handle. *)
Definition flags_consistent (w : World) : Prop :=
  (paused (snd (core w)) = true ->
   started (snd (core w)) = true \/ stopped (snd (core w)) = true)
  /\ (stopped (snd (core w)) = true -> fst (core w) = None).

(** What a lifecycle call that its guard lets pass, or that fails on the
    missing camera, is rejected with. *)
Definition rejection (o : op) (w : World) : exn :=
  match o with
  | Start _ => Error start_message
  | Pause _ => Error pause_message
  | Resume _ =>
      if paused (snd (core w)) then null_call "resume"
      else Error resume_message
  | _ => Error stop_message
  end.

(** What a lifecycle call answers when everything does its work: the
    promise of [start()] is pending until the first request. *)
Definition accepted (o : op) : outcome :=
  match o with
  | Start _ => Promise Pending
  | _ => Promise (Resolved RUndefined)
  end.

(** What has been written to the response of connection [c], in order. *)
Definition received (c : client) (w : World) : list chunk :=
  map snd (filter (fun p => Nat.eqb (fst p) c) (written w)).

(** One part of the multipart stream on connection [c]. *)
Definition part (mime : option string) (d : bytes) (c : client)
  : list (client * chunk) :=
  [(c, Text (part_header mime (List.length d))); (c, Data d)].

(** The parts that a frame is to add to the responses of the subscribed
    connections [subs]: none for a connection whose write throws. *)
Definition parts (mime : option string) (d : bytes) (wf : client -> bool)
  (subs : list client) : list (client * chunk) :=
  flat_map (fun c => if wf c then [] else part mime d c) subs.


(** The route of index [i] is the first one of its application and path. *)
Definition first_route (w : World) (i : nat) : Prop :=
  exists r,
    nth_error (routes w) i = Some r
    /\ find_route (route_app r) (route_path r) 0 (routes w) = Some i.

(** Every resolved [start()] is resolved once, and it is the one whose
    route comes first for its application and path. *)
Definition resolution_invariant (w : World) : Prop :=
  NoDup (map fst (start_resolved w))
  /\ forall i u, In (i, u) (start_resolved w) -> first_route w i.

Definition is_register (o : op) : bool :=
  match o with
  | Register _ _ => true
  | _ => false
  end.

(** [register] called without an application (with null). *)
Definition is_null_register (o : op) : bool :=
  match o with
  | Register None _ => true
  | _ => false
  end.

(** A request made on connection [c]. *)
Definition is_request_of (c : client) (o : op) : bool :=
  match o with
  | Request _ _ d _ => Nat.eqb d c
  | _ => false
  end.

(** The controller has created at most one application, listens with
    nothing but the applications it created, and has created none while
    it has no application. *)
Definition own_server_invariant (w : World) : Prop :=
  (apps_created w <= 1)%nat
  /\ (List.length (listening w) <= apps_created w)%nat
  /\ (server_app (LiveStream.server (self w)) = None -> apps_created w = 0%nat).

(** Reading base64 text back, to tell encodings apart: the value of a
    character of the alphabet, and the bytes of a text of whole quadruples
    with [=] padding. *)
Definition base64_value (c : ascii) : Z :=
  let n := code c in
  if (65 <=? n) && (n <=? 90) then n - 65
  else if (97 <=? n) && (n <=? 122) then n - 71
  else if (48 <=? n) && (n <=? 57) then n + 4
  else if n =? 43 then 62
  else 63.

Definition byte_of (z : Z) : byte :=
  match Byte.of_N (Z.to_N z) with
  | Some b => b
  | None => x00
  end.

Fixpoint base64_read (s : string) : bytes :=
  match s with
  | String c1 (String c2 (String c3 (String c4 r))) =>
      let n :=
        base64_value c1 * 2 ^ 18 + base64_value c2 * 2 ^ 12
        + (if Ascii.eqb c3 "=" then 0 else base64_value c3 * 2 ^ 6)
        + (if Ascii.eqb c4 "=" then 0 else base64_value c4) in
      if Ascii.eqb c3 "=" then [byte_of (n / 2 ^ 16)]
      else if Ascii.eqb c4 "="
           then [byte_of (n / 2 ^ 16); byte_of (n / 2 ^ 8 mod 2 ^ 8)]
           else (byte_of (n / 2 ^ 16) :: byte_of (n / 2 ^ 8 mod 2 ^ 8)
                 :: byte_of (n mod 2 ^ 8) :: base64_read r)%list
  | _ => []
  end.

(** A character of the base64 alphabet, and a text made of them. *)
Definition is_base64_char (c : ascii) : bool :=
  let n := code c in
  ((65 <=? n) && (n <=? 90)) || ((97 <=? n) && (n <=? 122))
  || ((48 <=? n) && (n <=? 57)) || (n =? 43) || (n =? 47).

Fixpoint all_chars (f : ascii -> bool) (s : string) : bool :=
  match s with
  | String c r => f c && all_chars f r
  | EmptyString => true
  end.

(** The text that may follow a numeral: it does not start with a digit,
    nor with the [x] that would make a hexadecimal prefix of a zero. *)
Definition ends_numeral (s : string) : Prop :=
  match s with
  | String c _ =>
      is_digit c = false /\ Ascii.eqb c "x" = false /\ Ascii.eqb c "X" = false
  | EmptyString => True
  end.

(** A numeral goes on with a digit, or is followed by text that ends it. *)
Definition after_digit (s : string) : Prop :=
  match s with
  | String c _ => Ascii.eqb c "x" = false /\ Ascii.eqb c "X" = false
  | EmptyString => True
  end.

(** The applications created, the calls of [listen], and the application
    the controller is bound to. *)
Definition binding (w : World) : nat * list (app * number) * option app :=
  (apps_created w, listening w, server_app (LiveStream.server (self w))).

Definition is_frame (o : op) : bool :=
  match o with
  | Frame _ _ => true
  | _ => false
  end.

(* ================================================================== *)
(** * The embedding on examples *)
(* ================================================================== *)

Example to_string_small : to_string (VNum (Int (-3280))) = "-3280".
Proof. reflexivity. Qed.

Example to_string_1e21 : to_string (VNum (Int (10 ^ 21))) = "1e+21".
Proof. vm_compute. reflexivity. Qed.

Example to_string_2p60 :
  to_string (VNum (Int (2 ^ 60))) = "1152921504606847000".
Proof. vm_compute. reflexivity. Qed.

Example to_string_2p70 :
  to_string (VNum (Int (2 ^ 70))) = "1.1805916207174113e+21".
Proof. vm_compute. reflexivity. Qed.

Example parseInt_examples :
  map parseInt
      [VStr "  -0x1F"; VStr "12px"; VStr "abc"; VStr ""; VStr "+7";
       VNull; VUndefined; VBool true; VNum NaN; VNum (Int (-42))]
  = [Int (-31); Int 12; NaN; NaN; Int 7; NaN; NaN; NaN; NaN; Int (-42)].
Proof. vm_compute. reflexivity. Qed.

Example trim_example : trim "  a b  " = "a b".
Proof. reflexivity. Qed.

Example base64_examples :
  map LiveStream.base64
      [[x4d; x61; x6e]; [x4d; x61]; [x4d]; [xff; xd8; xff; xe0]; []]
  = ["TWFu"; "TWE="; "TQ=="; "/9j/4A=="; ""].
Proof. reflexivity. Qed.

Example setPathname_examples :
  map (fun p => LiveStream.pathname
                  (LiveStream.setPathname p
                     (LiveStream.new LiveStream.default_config)))
      ["/webcam"; "webcam "; " /webcam"]
  = ["/webcam"; "/webcam"; "//webcam"].
Proof. reflexivity. Qed.

Example getSupportedEncodingTypes_example :
  LiveStream.getSupportedEncodingTypes
    (LiveStream.new LiveStream.default_config)
  = "JPEG,GIF,PNG,PPM,TGA,BMP".
Proof. reflexivity. Qed.

Example part_header_example :
  part_header None 3
  = "--livestream" ++ newline ++ "Content-Type: null" ++ newline
    ++ "Content-length: 3" ++ newline ++ newline.
Proof. reflexivity. Qed.

(* ================================================================== *)
(** * Numerals: printing and parsing *)
(* ================================================================== *)

Section Numerals.

Lemma digit_cases (d : Z) :
  0 <= d < 10 ->
  d = 0 \/ d = 1 \/ d = 2 \/ d = 3 \/ d = 4 \/ d = 5 \/ d = 6 \/ d = 7
  \/ d = 8 \/ d = 9.
Proof. lia. Qed.

Ltac each_digit d H :=
  destruct (digit_cases d H) as [-> | [-> | [-> | [-> | [-> | [-> | [-> |
                                [-> | [-> | ->]]]]]]]]].

Lemma digit_char_is_digit (d : Z) : 0 <= d < 10 -> is_digit (digit_char d) = true.
Proof. intros H. each_digit d H; reflexivity. Qed.

Lemma digit_value_digit_char (d : Z) :
  0 <= d < 10 -> digit_value 10 (digit_char d) = Some d.
Proof. intros H. each_digit d H; reflexivity. Qed.

Lemma mod10_range (n : Z) : 0 <= n mod 10 < 10.
Proof. apply Z.mod_pos_bound. lia. Qed.

(** The numeral printed with enough fuel starts with a digit and goes on
    with a digit (or ends). *)
Lemma digits_fuel_head (f : nat) :
  forall n rest,
    head_is_digit rest ->
    exists c r,
      digits_fuel (S f) n rest = String c r
      /\ is_digit c = true /\ head_is_digit r.
Proof.
  induction f as [| f IH]; intros n rest Hrest.
  - exists (digit_char (n mod 10)), rest. simpl.
    destruct (n <? 10); auto using digit_char_is_digit, mod10_range.
  - change (digits_fuel (S (S f)) n rest)
      with (if n <? 10 then String (digit_char (n mod 10)) rest
            else digits_fuel (S f) (n / 10) (String (digit_char (n mod 10)) rest)).
    destruct (n <? 10).
    + exists (digit_char (n mod 10)), rest.
      auto using digit_char_is_digit, mod10_range.
    + apply IH. simpl. apply digit_char_is_digit, mod10_range.
Qed.

(** Reading a printed numeral: the digits of [n] shift what was read
    before and add [n]. *)
Lemma parse_digits_fuel (f : nat) :
  forall n rest,
    0 <= n < 2 ^ Z.of_nat (S f) ->
    exists k,
      0 <= k /\
      forall a,
        parse_digits 10 (digits_fuel (S f) n rest) a
        = parse_digits 10 rest (Some (10 ^ k * read a + n)).
Proof.
  induction f as [| f IH]; intros n rest Hn.
  - exists 1. split; [lia |]. intros a.
    assert (Hlt : n < 10) by (change (2 ^ Z.of_nat 1) with 2 in Hn; lia).
    simpl digits_fuel. destruct (n <? 10);
      (cbn [parse_digits]; rewrite digit_value_digit_char by apply mod10_range;
       rewrite Z.mod_small by lia; fold (read a); f_equal; f_equal; lia).
  - change (digits_fuel (S (S f)) n rest)
      with (if n <? 10 then String (digit_char (n mod 10)) rest
            else digits_fuel (S f) (n / 10) (String (digit_char (n mod 10)) rest)).
    destruct (Z.ltb_spec n 10) as [Hlt | Hge].
    + exists 1. split; [lia |]. intros a.
      cbn [parse_digits]. rewrite digit_value_digit_char by apply mod10_range.
      rewrite Z.mod_small by lia. fold (read a). f_equal; f_equal; lia.
    + destruct (IH (n / 10) (String (digit_char (n mod 10)) rest)) as (k & Hk & E).
      { split; [apply Z.div_pos; lia |].
        apply Z.div_lt_upper_bound; [lia |].
        rewrite Nat2Z.inj_succ in Hn. rewrite Z.pow_succ_r in Hn by lia.
        lia. }
      exists (k + 1). split; [lia |]. intros a. rewrite E.
      cbn [parse_digits]. rewrite digit_value_digit_char by apply mod10_range.
      cbn [read]. f_equal. f_equal.
      rewrite Z.pow_add_r by lia.
      pose proof (Z.div_mod n 10 ltac:(lia)). lia.
Qed.

Lemma decimal_fuel (x : Z) : 0 <= x -> x < 2 ^ Z.of_nat (S (Z.to_nat (Z.log2 x))).
Proof.
  intros Hx. rewrite Nat2Z.inj_succ, Z2Nat.id by apply Z.log2_nonneg.
  destruct (Z.eq_dec x 0) as [-> | Hne]; [reflexivity |].
  apply Z.log2_spec. lia.
Qed.

Lemma parse_decimal (x : Z) :
  0 <= x -> parse_digits 10 (decimal x) None = Some x.
Proof.
  intros Hx. unfold decimal.
  destruct (parse_digits_fuel (Z.to_nat (Z.log2 x)) x "") as (k & _ & E).
  { split; [assumption | apply decimal_fuel; assumption]. }
  rewrite E. cbn [parse_digits read]. f_equal. lia.
Qed.

Lemma digit_not_space (c : ascii) : is_digit c = true -> is_white_space c = false.
Proof.
  unfold is_digit, is_white_space. intros H.
  apply andb_true_iff in H as [H1 H2].
  apply Z.leb_le in H1. apply Z.leb_le in H2.
  apply orb_false_iff. split.
  - apply andb_false_iff. right. apply Z.leb_gt. lia.
  - apply Z.eqb_neq. lia.
Qed.

Lemma digit_not_char (c d : ascii) :
  is_digit c = true -> is_digit d = false -> Ascii.eqb c d = false.
Proof.
  intros Hc Hd. destruct (Ascii.eqb_spec c d) as [-> | ]; congruence.
Qed.

(** [parseInt] on a string that starts like a decimal numeral reads it in
    radix 10. *)
Lemma parseInt_string_numeral (c : ascii) (r : string) :
  is_digit c = true -> head_is_digit r ->
  parseInt_string (String c r)
  = match parse_digits 10 (String c r) None with
    | Some m => Int m
    | None => NaN
    end.
Proof.
  intros Hc Hr. unfold parseInt_string.
  cbn [trim_start]. rewrite (digit_not_space c Hc).
  rewrite (digit_not_char c "-" Hc eq_refl), (digit_not_char c "+" Hc eq_refl).
  destruct r as [| x r].
  - destruct (parse_digits 10 (String c "") None) as [m |]; [f_equal; lia | reflexivity].
  - cbn in Hr.
    rewrite (Ascii.eqb_sym x "x"), (Ascii.eqb_sym x "X").
    rewrite (Ascii.eqb_sym "x" x), (Ascii.eqb_sym "X" x).
    rewrite (digit_not_char x "x" Hr eq_refl), (digit_not_char x "X" Hr eq_refl).
    rewrite andb_false_r.
    destruct (parse_digits 10 (String c (String x r)) None) as [m |];
      [f_equal; lia | reflexivity].
Qed.

Lemma parseInt_decimal (x : Z) : 0 <= x -> parseInt_string (decimal x) = Int x.
Proof.
  intros Hx.
  destruct (digits_fuel_head (Z.to_nat (Z.log2 x)) x "" I) as (c & r & E & Hc & Hr).
  fold (decimal x) in E.
  pose proof (parse_decimal x Hx) as P. rewrite E in P |- *.
  rewrite (parseInt_string_numeral c r Hc Hr), P. reflexivity.
Qed.

Lemma parseInt_minus_decimal (x : Z) :
  0 < x -> parseInt_string ("-" ++ decimal x) = Int (- x).
Proof.
  intros Hx.
  destruct (digits_fuel_head (Z.to_nat (Z.log2 x)) x "" I) as (c & r & E & Hc & Hr).
  fold (decimal x) in E.
  pose proof (parse_decimal x ltac:(lia)) as P. rewrite E in P |- *.
  pose proof (parseInt_string_numeral c r Hc Hr) as Q. rewrite P in Q.
  unfold parseInt_string in Q |- *.
  cbn [append trim_start] in Q |- *.
  rewrite (digit_not_space c Hc) in Q.
  rewrite (digit_not_char c "-" Hc eq_refl), (digit_not_char c "+" Hc eq_refl) in Q.
  change (is_white_space "-") with false. cbn [Ascii.eqb Bool.eqb].
  cbv iota beta.
  destruct r as [| y r'].
  - destruct (parse_digits 10 (String c "") None) as [m |]; [| discriminate].
    assert (1 * m = x) by congruence. f_equal. lia.
  - destruct (Ascii.eqb c "0" && (Ascii.eqb y "x" || Ascii.eqb y "X")).
    + destruct (parse_digits 16 r' None) as [m |]; [| discriminate].
      assert (1 * m = x) by congruence. f_equal. lia.
    + destruct (parse_digits 10 (String c (String y r')) None) as [m |];
        [| discriminate].
      assert (1 * m = x) by congruence. f_equal. lia.
Qed.

(** On an integer of magnitude at most [2^53], [parseInt] is the identity. *)
Lemma parseInt_safe_integer (z : Z) :
  Z.abs z <= 2 ^ 53 -> parseInt (VNum (Int z)) = Int z.
Proof.
  intros Hz. unfold parseInt. cbn [to_string number_to_string].
  destruct (Z.ltb_spec z 0) as [Hneg | Hpos].
  - unfold nonneg_to_string.
    destruct (Z.leb_spec (- z) (2 ^ 53)) as [_ | Hbig]; [| lia].
    rewrite parseInt_minus_decimal by lia. f_equal. lia.
  - unfold nonneg_to_string.
    destruct (Z.leb_spec z (2 ^ 53)) as [_ | Hbig]; [| lia].
    apply parseInt_decimal. assumption.
Qed.

End Numerals.

(* ================================================================== *)
(** * The validated setters *)
(* ================================================================== *)

Section Setters.

Variable this : LiveStream.obj.

(** A bounded setter on an integer of magnitude at most [2^53] checks the
    integer itself against its range. *)
Lemma setWidth_safe_integer (z : Z) (v : value) :
  Z.abs z <= 2 ^ 53 ->
  let c := LiveStream.config this in
  LiveStream.setWidth (VNum (Int z)) v this
  = let v' := default_arg v (VNum (Int 2)) in
    let maxWidth := if strict_eq_one v' then 2592 else 3280 in
    if (32 <=? z) && (z <=? maxWidth)
    then Ok (LiveStream.with_config
               (mkConfig (Int z) (height c) (fps c) (encoding c) (quality c))
               this)
    else Throw (Error (LiveStream.width_message (Int maxWidth) v')).
Proof.
  intros Hz c. unfold LiveStream.setWidth.
  rewrite (parseInt_safe_integer z Hz). cbv zeta.
  destruct (strict_eq_one (default_arg v (VNum (Int 2)))); unfold gt, lt;
    match goal with
    | |- context [(32 <=? z) && (z <=? ?m)] =>
        destruct (Z.leb_spec 32 z), (Z.leb_spec z m),
                 (Z.ltb_spec z 32), (Z.ltb_spec m z);
        try lia; reflexivity
    end.
Qed.

Lemma setHeight_safe_integer (z : Z) (v : value) :
  Z.abs z <= 2 ^ 53 ->
  let c := LiveStream.config this in
  LiveStream.setHeight (VNum (Int z)) v this
  = let v' := default_arg v (VNum (Int 2)) in
    let maxHeight := if strict_eq_one v' then 1944 else 2464 in
    if (16 <=? z) && (z <=? maxHeight)
    then Ok (LiveStream.with_config
               (mkConfig (width c) (Int z) (fps c) (encoding c) (quality c))
               this)
    else Throw (Error (LiveStream.height_message (Int maxHeight) v')).
Proof.
  intros Hz c. unfold LiveStream.setHeight.
  rewrite (parseInt_safe_integer z Hz). cbv zeta.
  destruct (strict_eq_one (default_arg v (VNum (Int 2)))); unfold gt, lt;
    match goal with
    | |- context [(16 <=? z) && (z <=? ?m)] =>
        destruct (Z.leb_spec 16 z), (Z.leb_spec z m),
                 (Z.ltb_spec z 16), (Z.ltb_spec m z);
        try lia; reflexivity
    end.
Qed.

Lemma setFPS_safe_integer (z : Z) :
  Z.abs z <= 2 ^ 53 ->
  let c := LiveStream.config this in
  LiveStream.setFPS (VNum (Int z)) this
  = if (1 <=? z) && (z <=? 90)
    then Ok (LiveStream.with_config
               (mkConfig (width c) (height c) (Int z) (encoding c) (quality c))
               this)
    else Throw (Error LiveStream.fps_message).
Proof.
  intros Hz c. unfold LiveStream.setFPS.
  rewrite (parseInt_safe_integer z Hz). cbv zeta. unfold gt, lt.
  destruct (Z.leb_spec 1 z), (Z.leb_spec z 90),
           (Z.ltb_spec z 1), (Z.ltb_spec 90 z);
    try lia; reflexivity.
Qed.

Lemma setQuality_safe_integer (z : Z) :
  Z.abs z <= 2 ^ 53 ->
  let c := LiveStream.config this in
  LiveStream.setQuality (VNum (Int z)) this
  = if (1 <=? z) && (z <=? 100)
    then Ok (LiveStream.with_config
               (mkConfig (width c) (height c) (fps c) (encoding c) (Int z))
               this)
    else Throw (Error LiveStream.quality_message).
Proof.
  intros Hz c. unfold LiveStream.setQuality.
  rewrite (parseInt_safe_integer z Hz). cbv zeta. unfold gt, lt.
  destruct (Z.leb_spec 1 z), (Z.leb_spec z 100),
           (Z.ltb_spec z 1), (Z.ltb_spec 100 z);
    try lia; reflexivity.
Qed.

(** The errors of the bounded setters are validation errors. *)
Lemma setter_messages_are_validation_errors (m : number) (v : value) :
  is_validation_error (Error (LiveStream.width_message m v)) = true
  /\ is_validation_error (Error (LiveStream.height_message m v)) = true
  /\ is_validation_error (Error LiveStream.fps_message) = true
  /\ is_validation_error (Error LiveStream.quality_message) = true.
Proof. repeat split; reflexivity. Qed.

End Setters.

(** On every integer of magnitude at most [2^53] the four bounded setters
    check the integer against their range, [32..2592] or [32..3280] for
    the width, [16..1944] or [16..2464] for the height (camera version 1
    or 2), [1..90] for the frame rate and [1..100] for the quality: within
    the range the integer is stored, outside it a validation error is
    thrown and nothing is stored. *)
Theorem bounded_setters_on_safe_integers (z : Z) (this : LiveStream.obj) :
  Z.abs z <= 2 ^ 53 ->
  let c := LiveStream.config this in
  let v1 := VNum (Int 1) in
  let v2 := VNum (Int 2) in
  let store (c' : Config) := Ok (LiveStream.with_config c' this) in
  LiveStream.setWidth (VNum (Int z)) v1 this
  = (if (32 <=? z) && (z <=? 2592)
     then store (mkConfig (Int z) (height c) (fps c) (encoding c) (quality c))
     else Throw (Error (LiveStream.width_message (Int 2592) v1)))
  /\ LiveStream.setWidth (VNum (Int z)) v2 this
     = (if (32 <=? z) && (z <=? 3280)
        then store (mkConfig (Int z) (height c) (fps c) (encoding c) (quality c))
        else Throw (Error (LiveStream.width_message (Int 3280) v2)))
  /\ LiveStream.setHeight (VNum (Int z)) v1 this
     = (if (16 <=? z) && (z <=? 1944)
        then store (mkConfig (width c) (Int z) (fps c) (encoding c) (quality c))
        else Throw (Error (LiveStream.height_message (Int 1944) v1)))
  /\ LiveStream.setHeight (VNum (Int z)) v2 this
     = (if (16 <=? z) && (z <=? 2464)
        then store (mkConfig (width c) (Int z) (fps c) (encoding c) (quality c))
        else Throw (Error (LiveStream.height_message (Int 2464) v2)))
  /\ LiveStream.setFPS (VNum (Int z)) this
     = (if (1 <=? z) && (z <=? 90)
        then store (mkConfig (width c) (height c) (Int z) (encoding c) (quality c))
        else Throw (Error LiveStream.fps_message))
  /\ LiveStream.setQuality (VNum (Int z)) this
     = (if (1 <=? z) && (z <=? 100)
        then store (mkConfig (width c) (height c) (fps c) (encoding c) (Int z))
        else Throw (Error LiveStream.quality_message))
  /\ forallb is_validation_error
       [Error (LiveStream.width_message (Int 2592) v1);
        Error (LiveStream.width_message (Int 3280) v2);
        Error (LiveStream.height_message (Int 1944) v1);
        Error (LiveStream.height_message (Int 2464) v2);
        Error LiveStream.fps_message; Error LiveStream.quality_message]
     = true.
Proof.
  intros Hz c v1 v2 store.
  rewrite !(setWidth_safe_integer this z _ Hz),
          !(setHeight_safe_integer this z _ Hz),
          (setFPS_safe_integer this z Hz), (setQuality_safe_integer this z Hz).
  repeat split.
Qed.

Lemma bounded_setters_at_3000 :
  let this := LiveStream.new LiveStream.default_config in
  LiveStream.setWidth (VNum (Int 3000)) (VNum (Int 1)) this
  = Throw (Error "[-] Maximum width must between 32 and 2592 for v1 cameras.")
  /\ LiveStream.setWidth (VNum (Int 3000)) (VNum (Int 2)) this
     = Ok (LiveStream.with_config
             (mkConfig (Int 3000) (Int 720) (Int 16) "JPEG" (Int 25)) this)
  /\ LiveStream.setFPS (VNum (Int 3000)) this
     = Throw (Error "[-] FPS value must between 1 and 90.").
Proof.
  pose proof (bounded_setters_on_safe_integers 3000
                (LiveStream.new LiveStream.default_config)
                ltac:(vm_compute; discriminate))
    as (A & B & _ & _ & C & _).
  cbv zeta. rewrite A, B, C. repeat split.
Defined.

(** C10: when [parseInt] of the argument is [NaN], none of [setWidth],
    [setHeight], [setFPS] and [setQuality] throws: both comparisons of the
    range check are false and [NaN] is stored in the config. *)
Theorem setters_store_NaN (x v : value) (this : LiveStream.obj) :
  parseInt x = NaN ->
  let c := LiveStream.config this in
  LiveStream.setWidth x v this
  = Ok (LiveStream.with_config
          (mkConfig NaN (height c) (fps c) (encoding c) (quality c)) this)
  /\ LiveStream.setHeight x v this
     = Ok (LiveStream.with_config
             (mkConfig (width c) NaN (fps c) (encoding c) (quality c)) this)
  /\ LiveStream.setFPS x this
     = Ok (LiveStream.with_config
             (mkConfig (width c) (height c) NaN (encoding c) (quality c)) this)
  /\ LiveStream.setQuality x this
     = Ok (LiveStream.with_config
             (mkConfig (width c) (height c) (fps c) (encoding c) NaN) this).
Proof.
  intros H c.
  unfold LiveStream.setWidth, LiveStream.setHeight, LiveStream.setFPS,
    LiveStream.setQuality.
  rewrite H. cbv zeta.
  destruct (strict_eq_one (default_arg v (VNum (Int 2))));
    repeat split; reflexivity.
Qed.

Lemma setters_store_NaN_abc :
  let this := LiveStream.new LiveStream.default_config in
  parseInt (VStr "abc") = NaN
  /\ LiveStream.setFPS (VStr "abc") this
     = Ok (LiveStream.with_config
             (mkConfig (Int 1280) (Int 720) NaN "JPEG" (Int 25)) this)
  /\ LiveStream.setQuality (VStr "abc") this
     = Ok (LiveStream.with_config
             (mkConfig (Int 1280) (Int 720) (Int 16) "JPEG" NaN) this).
Proof.
  pose proof (setters_store_NaN (VStr "abc") VUndefined
                (LiveStream.new LiveStream.default_config) eq_refl)
    as (_ & _ & F & Q).
  repeat split; assumption.
Defined.

(** The scenario of the specification for [setWidth]. *)
Lemma setWidth_scenario :
  let this := LiveStream.new LiveStream.default_config in
  LiveStream.setWidth (VNum (Int 100)) (VNum (Int 1)) this
  = Ok (LiveStream.with_config
          (mkConfig (Int 100) (Int 720) (Int 16) "JPEG" (Int 25)) this)
  /\ LiveStream.setWidth (VNum (Int 3000)) (VNum (Int 1)) this
     = Throw (Error "[-] Maximum width must between 32 and 2592 for v1 cameras.")
  /\ LiveStream.setWidth (VNum (Int 3000)) (VNum (Int 2)) this
     = Ok (LiveStream.with_config
             (mkConfig (Int 3000) (Int 720) (Int 16) "JPEG" (Int 25)) this).
Proof. vm_compute. repeat split. Qed.

(** C7: [setFPS] and [setQuality] at the integer [10^21], which is a
    double and lies outside both ranges.  [parseInt] works on the string of
    its argument, the string of [10^21] is [1e+21], and the numeral read
    from it is [1]: neither setter throws, and each stores [1]. *)
Theorem setFPS_setQuality_at_1e21 :
  let this := LiveStream.new LiveStream.default_config in
  round53 (10 ^ 21) = 10 ^ 21
  /\ to_string (VNum (Int (10 ^ 21))) = "1e+21"
  /\ parseInt (VNum (Int (10 ^ 21))) = Int 1
  /\ LiveStream.setFPS (VNum (Int (10 ^ 21))) this
     = Ok (LiveStream.with_config
             (mkConfig (Int 1280) (Int 720) (Int 1) "JPEG" (Int 25)) this)
  /\ LiveStream.setQuality (VNum (Int (10 ^ 21))) this
     = Ok (LiveStream.with_config
             (mkConfig (Int 1280) (Int 720) (Int 16) "JPEG" (Int 1)) this).
Proof. vm_compute. repeat split. Qed.

(* ================================================================== *)
(** * setEncoding *)
(* ================================================================== *)

(** As a step: without the list on the global object, [setEncoding] throws
    and the state is what it was. *)
Lemma step_setEncoding_unbound (enc : string) (w : World) :
  get_global (globals w) "supportedEncodingTypes" = None ->
  step (SetEncoding enc) w
  = (w, Throws (ReferenceError "supportedEncodingTypes is not defined")).
Proof.
  intros H. cbn [step]. unfold LiveStream.setEncoding. rewrite H. reflexivity.
Qed.

(** C1: whatever the argument, [setEncoding] throws a [ReferenceError] when
    the global object has no property [supportedEncodingTypes]: the list
    is never consulted and nothing is stored. *)
Theorem setEncoding_unbound_list
  (g : global_object) (enc : string) (this : LiveStream.obj) :
  get_global g "supportedEncodingTypes" = None ->
  LiveStream.setEncoding g enc this
  = Throw (ReferenceError "supportedEncodingTypes is not defined").
Proof. intros H. unfold LiveStream.setEncoding. rewrite H. reflexivity. Qed.

Lemma setEncoding_png_throws :
  LiveStream.setEncoding node_globals "png"
    (LiveStream.new LiveStream.default_config)
  = Throw (ReferenceError "supportedEncodingTypes is not defined")
  /\ is_validation_error
       (ReferenceError "supportedEncodingTypes is not defined") = false.
Proof.
  split; [| reflexivity].
  exact (setEncoding_unbound_list node_globals "png"
           (LiveStream.new LiveStream.default_config) eq_refl).
Defined.



(* ================================================================== *)
(** * register *)
(* ================================================================== *)

(** C8, as amended: [register] stores the handle it is given and touches
    nothing but the server binding (no application starts listening, no
    route is added).  A port that is a non-zero integer of magnitude at
    most [2^53] is stored; without a port, and with the port [0], the
    stored port stays. *)
Theorem register_binds_server (w : World) (a : option app) (p : Z) :
  p <> 0 ->
  Z.abs p <= 2 ^ 53 ->
  let kept := server_port (LiveStream.server (self w)) in
  step (Register a (VNum (Int p))) w
  = (with_self (LiveStream.with_server (mkServer a (Int p)) (self w)) w,
     Returns RUndefined)
  /\ step (Register a VUndefined) w
     = (with_self (LiveStream.with_server (mkServer a kept) (self w)) w,
        Returns RUndefined)
  /\ step (Register a (VNum (Int 0))) w
     = (with_self (LiveStream.with_server (mkServer a kept) (self w)) w,
        Returns RUndefined)
  /\ listening (fst (step (Register a (VNum (Int p))) w)) = listening w.
Proof.
  intros Hp Hz kept. cbn [step]. unfold LiveStream.register.
  cbn [default_arg truthy server_app server_port].
  rewrite (parseInt_safe_integer p Hz).
  destruct (Z.eqb_spec p 0) as [E | _]; [contradiction |].
  repeat split; reflexivity.
Qed.

Lemma register_port_8080 :
  let w := boot node_globals LiveStream.default_config in
  LiveStream.server
    (self (fst (step (Register (Some (ExternalApp 0)) (VNum (Int 8080))) w)))
  = mkServer (Some (ExternalApp 0)) (Int 8080).
Proof.
  pose proof (register_binds_server
                (boot node_globals LiveStream.default_config)
                (Some (ExternalApp 0)) 8080 ltac:(discriminate)
                ltac:(vm_compute; discriminate)) as (E & _).
  cbv zeta. rewrite E. reflexivity.
Defined.

(** [register] with the port [0] keeps the default port [8000]. *)
Lemma register_port_zero :
  let this :=
    LiveStream.register (Some (ExternalApp 0)) (VNum (Int 0))
      (LiveStream.new LiveStream.default_config) in
  LiveStream.server this = mkServer (Some (ExternalApp 0)) (Int 8000)
  /\ server_port (LiveStream.server this) <> Int 0.
Proof. split; [reflexivity | discriminate]. Qed.

(* ================================================================== *)
(** * Frames *)
(* ================================================================== *)

Lemma with_lastFrame_twice (f : option bytes) (o : LiveStream.obj) :
  LiveStream.with_lastFrame f (LiveStream.with_lastFrame f o)
  = LiveStream.with_lastFrame f o.
Proof. reflexivity. Qed.

Lemma frameHandler_self (c : client) (b : bool) (d : bytes) (w : World) :
  self (fst (frameHandler c b d w)) = LiveStream.with_lastFrame (Some d) (self w).
Proof. unfold frameHandler. destruct b; reflexivity. Qed.

(** A frame leaves the controller as it is when nobody is subscribed, and
    otherwise replaces the last frame, and nothing else of the controller. *)
Lemma emit_frame_self (d : bytes) (wf : client -> bool) (w : World) :
  self (emit_frame d wf w)
  = match subscribers w with
    | [] => self w
    | _ :: _ => LiveStream.with_lastFrame (Some d) (self w)
    end.
Proof.
  unfold emit_frame. generalize (subscribers w) as subs. intros subs.
  revert w. induction subs as [| c r IH]; intros w; [reflexivity |].
  cbn [fold_left]. rewrite IH, frameHandler_self.
  destruct r; reflexivity.
Qed.

Lemma frameHandler_rest (c : client) (b : bool) (d : bytes) (w : World) :
  let w' := fst (frameHandler c b d w) in
  globals w' = globals w /\ routes w' = routes w
  /\ start_resolved w' = start_resolved w /\ subscribers w' = subscribers w
  /\ listening w' = listening w /\ camera_calls w' = camera_calls w.
Proof. unfold frameHandler. destruct b; repeat split; reflexivity. Qed.

Lemma fold_frameHandler_rest (d : bytes) (wf : client -> bool)
  (subs : list client) :
  forall w,
    let w' :=
      fold_left (fun w c => fst (frameHandler c (wf c) d w)) subs w in
    globals w' = globals w /\ routes w' = routes w
    /\ start_resolved w' = start_resolved w /\ subscribers w' = subscribers w
    /\ listening w' = listening w /\ camera_calls w' = camera_calls w.
Proof.
  induction subs as [| c r IH]; intros w; [repeat split |].
  cbn [fold_left].
  destruct (IH (fst (frameHandler c (wf c) d w))) as (A & B & C & D & E & F).
  destruct (frameHandler_rest c (wf c) d w) as (A' & B' & C' & D' & E' & F').
  cbv zeta in *. repeat split; congruence.
Qed.

Lemma emit_frame_rest (d : bytes) (wf : client -> bool) (w : World) :
  let w' := emit_frame d wf w in
  globals w' = globals w /\ routes w' = routes w
  /\ start_resolved w' = start_resolved w /\ subscribers w' = subscribers w
  /\ listening w' = listening w /\ camera_calls w' = camera_calls w.
Proof. apply fold_frameHandler_rest. Qed.

(** A request that finds its route while the controller holds the camera
    subscribes the connection; closing the connection unsubscribes it. *)
Lemma request_subscribes
  (a : app) (path : string) (c : client) (hostname : string) (w : World) :
  find_route a path 0 (routes w) <> None ->
  LiveStream.camera (self w) <> None ->
  subscribers (request a path c hostname w) = (subscribers w ++ [c])%list
  /\ ~ In c (subscribers (close c (request a path c hostname w))).
Proof.
  intros Hr Hc. unfold request.
  destruct (find_route a path 0 (routes w)) as [i |]; [| contradiction].
  unfold handle_request. cbn [self with_written].
  destruct (LiveStream.camera (self w)); [| contradiction].
  assert (F : forall l, ~ In c (filter (fun d => negb (Nat.eqb d c)) l)).
  { intros l Hin. apply filter_In in Hin as [_ E].
    rewrite Nat.eqb_refl in E. discriminate. }
  unfold close.
  match goal with
  | |- context [if ?b then _ else _] => destruct b
  end; cbn; split; auto.
Qed.

(** C2, as amended: a frame emitted by the camera becomes the last frame
    exactly when at least one client is subscribed, however many there are
    and whether or not the writes to them fail; with no client subscribed
    the last frame stays what it was. *)
Theorem frame_updates_lastFrame (d : bytes) (wf : client -> bool) (w : World) :
  LiveStream.lastFrame (self (fst (step (Frame d wf) w)))
  = match subscribers w with
    | [] => LiveStream.lastFrame (self w)
    | _ :: _ => Some d
    end.
Proof.
  cbn [step fst]. rewrite emit_frame_self. destruct (subscribers w); reflexivity.
Qed.

(** A started stream without a client: the frame is lost. *)
Lemma frame_without_client :
  let w := run [Start ok_env] (boot node_globals LiveStream.default_config) in
  state w = Started
  /\ subscribers w = []
  /\ LiveStream.lastFrame (self (fst (step (Frame [xff; xd8] (fun _ => false)) w)))
     = None
  /\ LiveStream.lastFrame (self (fst (step (Frame [xff; xd8] (fun _ => false)) w)))
     <> Some [xff; xd8].
Proof. vm_compute. repeat split. discriminate. Qed.

(* ================================================================== *)
(** * What a step can change *)
(* ================================================================== *)

Ltac split_ifs :=
  repeat match goal with
    | |- context [if ?b then _ else _] => destruct b eqn:?
    | |- context [match ?x with Some _ => _ | None => _ end] => destruct x eqn:?
    end.

Lemma find_route_some (a : app) (path : string) (l : list route) (i j : nat) :
  find_route a path i l = Some j -> l <> [].
Proof. destruct l; [discriminate | discriminate]. Qed.

(** Setters, getters and events leave the camera handle, the status flags,
    the routes and the global object alone; only a request that finds a
    route can resolve a [start()]. *)
Lemma step_other (o : op) (w : World) :
  is_lifecycle_op o = false ->
  let w' := fst (step o w) in
  core w' = core w
  /\ routes w' = routes w
  /\ globals w' = globals w
  /\ (start_resolved w' = start_resolved w \/ routes w <> []).
Proof.
  intros Ho. destruct o; try discriminate Ho; cbn [step]; cbv zeta;
    try (repeat split; auto; fail).
  - unfold lift_setter, LiveStream.setWidth. split_ifs; repeat split; auto.
  - unfold lift_setter, LiveStream.setHeight. split_ifs; repeat split; auto.
  - unfold lift_setter, LiveStream.setFPS. split_ifs; repeat split; auto.
  - unfold lift_setter, LiveStream.setEncoding. split_ifs; repeat split; auto.
  - unfold lift_setter, LiveStream.setQuality. split_ifs; repeat split; auto.
  - destruct (LiveStream.getLastFrame (self w)); repeat split; auto.
  - cbn [fst]. unfold request.
    destruct (find_route a path 0 (routes w)) as [i |] eqn:F;
      [| repeat split; auto].
    apply find_route_some in F. unfold handle_request. cbn.
    split_ifs; repeat split; auto.
  - cbn [fst]. unfold core. rewrite emit_frame_self.
    destruct (emit_frame_rest frameData write_fails w) as (A & B & C & _).
    cbv zeta in *. destruct (subscribers w); repeat split; auto.
Qed.

(** The routes never shrink, resolved promises stay resolved, and the
    global object is never written. *)
Lemma step_lifecycle_rest (o : op) (w : World) :
  is_lifecycle_op o = true ->
  let w' := fst (step o w) in
  globals w' = globals w
  /\ start_resolved w' = start_resolved w
  /\ LiveStream.mimeType (self w') = LiveStream.mimeType (self w)
  /\ LiveStream.lastFrame (self w') = LiveStream.lastFrame (self w)
  /\ (routes w' = routes w
      \/ (exists r, routes w' = (routes w ++ [r])%list)
         /\ started (snd (core w')) = true).
Proof.
  intros Ho. destruct o; try discriminate Ho; cbn [step]; cbv zeta;
    unfold lift_promise; cbn [fst].
  - unfold start, initialize, listen.
    destruct env as [rq ex li ca]. cbn.
    destruct rq, ex, li, ca; split_ifs; cbn; repeat split; auto;
      right; split; eauto.
  - unfold pause. destruct cb; split_ifs; cbn; repeat split; auto.
  - unfold resume. destruct cb; split_ifs; cbn; repeat split; auto.
  - unfold stop. destruct cb; split_ifs; cbn; repeat split; auto.
Qed.

Lemma snoc_not_nil {A : Type} (l : list A) (x : A) : (l ++ [x])%list <> [].
Proof. destruct l; discriminate. Qed.

Lemma boot_invariant (g : global_object) (c : Config) : invariant (boot g c).
Proof.
  unfold invariant, consistent, core. cbn.
  repeat split; intros; try congruence; discriminate.
Qed.

Ltac close_invariant :=
  cbn; repeat split; intros;
  try apply snoc_not_nil; try congruence; try tauto; auto.

Lemma step_invariant (o : op) (w : World) :
  invariant w -> invariant (fst (step o w)).
Proof.
  intros Hw. destruct (is_lifecycle_op o) eqn:Ho.
  - destruct w as [[cam [ap port] cfg mime path lf vb [st pa sp]]
                     g n li ro sr su wr cc].
    unfold invariant, consistent, core in *. cbn in Hw.
    destruct Hw as (H1 & H2 & H3 & H4).
    destruct o; try discriminate Ho; cbn [step]; unfold lift_promise; cbn [fst].
    + unfold start, initialize, listen. destruct env as [rq ex li' ca]. cbn.
      destruct sp; [close_invariant |].
      destruct rq; [close_invariant |].
      destruct ap as [a |]; cbn.
      * destruct ca; close_invariant.
      * destruct ex; [close_invariant |].
        destruct li', ca; close_invariant.
    + unfold pause. cbn. destruct st; [| close_invariant].
      destruct cam; [| close_invariant].
      destruct cb; close_invariant.
    + unfold resume. cbn. destruct pa; [| close_invariant].
      destruct cam; [| close_invariant].
      destruct cb; close_invariant.
    + unfold stop. cbn. destruct st; [| close_invariant].
      destruct cam; [| close_invariant].
      destruct cb; close_invariant.
  - destruct (step_other o w Ho) as (C & R & _ & S).
    cbv zeta in *. destruct Hw as (H1 & H2 & H3 & H4).
    unfold invariant, consistent. rewrite C, R.
    repeat split; auto.
    intros N. destruct S as [S | S]; [| exact S].
    apply H1. rewrite <- S. exact N.
Qed.

Lemma run_invariant (ops : list op) :
  forall w, invariant w -> invariant (run ops w).
Proof.
  induction ops as [| o r IH]; intros w Hw; [exact Hw |].
  cbn [run]. apply IH, step_invariant, Hw.
Qed.

(** Every state reached from a fresh controller satisfies the invariant. *)
Lemma reachable_invariant (g : global_object) (c : Config) (ops : list op) :
  invariant (run ops (boot g c)).
Proof. apply run_invariant, boot_invariant. Qed.

(* ================================================================== *)
(** * The lifecycle *)
(* ================================================================== *)

Lemma stop_resolved_halts (cb : completion) (w : World) :
  snd (stop cb w) = Resolved tt -> halted (fst (stop cb w)).
Proof.
  unfold stop, halted, core.
  destruct (started (LiveStream.streamStatus (self w))); cbn; [| discriminate].
  destruct (LiveStream.camera (self w)); cbn; [| discriminate].
  destruct cb; cbn; try discriminate. repeat split.
Qed.

(** Once halted, a lifecycle call changes nothing at all. *)
Lemma halted_lifecycle (o : op) (w : World) :
  halted w -> is_lifecycle_op o = true -> fst (step o w) = w.
Proof.
  unfold halted, core. cbn [fst snd]. intros (Hs & Hn & Hc) Ho.
  destruct o; try discriminate Ho; cbn [step]; unfold lift_promise; cbn [fst].
  - unfold start. rewrite Hs. reflexivity.
  - unfold pause. rewrite Hn. reflexivity.
  - unfold resume. rewrite Hc.
    destruct (paused (LiveStream.streamStatus (self w))); reflexivity.
  - unfold stop. rewrite Hn. reflexivity.
Qed.

Lemma halted_step (o : op) (w : World) : halted w -> halted (fst (step o w)).
Proof.
  intros Hw. destruct (is_lifecycle_op o) eqn:Ho.
  - rewrite (halted_lifecycle o w Hw Ho). exact Hw.
  - destruct (step_other o w Ho) as (C & _). cbv zeta in C.
    unfold halted. rewrite C. exact Hw.
Qed.

Lemma halted_run (ops : list op) : forall w, halted w -> halted (run ops w).
Proof.
  induction ops as [| o r IH]; intros w Hw; [exact Hw |].
  cbn [run]. apply IH, halted_step, Hw.
Qed.

Lemma halted_start (env : start_env) (w : World) :
  halted w -> start env w = (w, Rejected (Error start_message)).
Proof.
  unfold halted, core. cbn [fst snd]. intros (Hs & _).
  unfold start. rewrite Hs. reflexivity.
Qed.

(** C3: once a [stop()] has resolved, whatever is done next, the
    controller is in the stopped state, holds no camera, and rejects every
    [start()] with the lifecycle error of the stopped stream, unchanged. *)
Theorem stopped_is_terminal
  (w : World) (cb : completion) (ops : list op) (env : start_env) :
  snd (step (Stop cb) w) = Promise (Resolved RUndefined) ->
  let w' := run ops (fst (step (Stop cb) w)) in
  state w' = Stopped
  /\ LiveStream.camera (self w') = None
  /\ step (Start env) w' = (w', Promise (Rejected (Error start_message)))
  /\ is_lifecycle_error (Error start_message) = true.
Proof.
  intros H w'. cbn [step] in H, w'. unfold lift_promise in H, w'.
  cbn [fst snd] in H, w'.
  assert (Hh : halted w').
  { apply halted_run, stop_resolved_halts.
    destruct (snd (stop cb w)) as [[] | |]; [reflexivity | discriminate ..]. }
  pose proof Hh as (Hs & Hn & Hc). unfold core in Hs, Hn, Hc. cbn [fst snd] in *.
  repeat split.
  - unfold state, lifecycle_of. rewrite Hs. reflexivity.
  - exact Hc.
  - cbn [step]. unfold lift_promise.
    rewrite (halted_start env w' Hh). reflexivity.
Qed.

Lemma stopped_is_terminal_run :
  let w := run [Start ok_env] (boot node_globals LiveStream.default_config) in
  let w' :=
    run [Pause Completes; Resume Completes; Start ok_env;
         Register (Some (ExternalApp 1)) (VNum (Int 8080))]
        (fst (step (Stop Completes) w)) in
  state w' = Stopped
  /\ LiveStream.camera (self w') = None
  /\ step (Start ok_env) w' = (w', Promise (Rejected (Error start_message)))
  /\ is_lifecycle_error (Error start_message) = true.
Proof.
  exact (stopped_is_terminal
           (run [Start ok_env] (boot node_globals LiveStream.default_config))
           Completes
           [Pause Completes; Resume Completes; Start ok_env;
            Register (Some (ExternalApp 1)) (VNum (Int 8080))]
           ok_env eq_refl).
Defined.

(** The scenario of the specification: start, pause, resume and stop
    succeed in this order, and a second start is rejected. *)
Lemma lifecycle_scenario :
  let w0 := boot node_globals LiveStream.default_config in
  let w1 := fst (step (Start ok_env) w0) in
  let w2 := fst (step (Pause Completes) w1) in
  let w3 := fst (step (Resume Completes) w2) in
  let w4 := fst (step (Stop Completes) w3) in
  map state [w0; w1; w2; w3; w4] = [Idle; Started; Paused; Started; Stopped]
  /\ snd (step (Pause Completes) w1) = Promise (Resolved RUndefined)
  /\ snd (step (Resume Completes) w2) = Promise (Resolved RUndefined)
  /\ snd (step (Stop Completes) w3) = Promise (Resolved RUndefined)
  /\ snd (step (Start ok_env) w4) = Promise (Rejected (Error start_message)).
Proof. vm_compute. repeat split. Qed.

(** C4, as amended: once a [start()] has resolved, [getLastFrame()] returns
    the last frame (null when there is none) for as long as the stopped
    flag is clear, and throws its lifecycle error once it is set. *)
Theorem getLastFrame_after_start
  (g : global_object) (c : Config) (ops : list op) :
  start_resolved (run ops (boot g c)) <> [] ->
  let this := self (run ops (boot g c)) in
  LiveStream.getLastFrame this
  = (if stopped (LiveStream.streamStatus this)
     then Throw (Error LiveStream.last_frame_message)
     else Ok (LiveStream.lastFrame this))
  /\ is_lifecycle_error (Error LiveStream.last_frame_message) = true.
Proof.
  intros H this. split; [| reflexivity].
  destruct (reachable_invariant g c ops) as (H1 & H2 & H3 & H4).
  unfold core in *. cbn [fst snd] in *. fold this in H2, H3, H4.
  unfold LiveStream.getLastFrame.
  destruct (stopped (LiveStream.streamStatus this)) eqn:Es.
  - rewrite (H4 eq_refl). reflexivity.
  - destruct (H2 (H1 H)) as [E | E]; [rewrite E; reflexivity | discriminate].
Qed.

Lemma getLastFrame_after_pause_resume :
  let ops :=
    [Start ok_env; Request (OwnApp 0) "/live.stream" 7%nat "raspberrypi";
     Pause Completes; Resume Completes] in
  let this := self (run ops (boot node_globals LiveStream.default_config)) in
  LiveStream.getLastFrame this = Ok None.
Proof.
  exact (proj1 (getLastFrame_after_start node_globals LiveStream.default_config
                  [Start ok_env;
                   Request (OwnApp 0) "/live.stream" 7%nat "raspberrypi";
                   Pause Completes; Resume Completes]
                  ltac:(vm_compute; discriminate))).
Defined.

(** A start that resolved, then a stop: [getLastFrame()] throws. *)
Lemma getLastFrame_after_stop :
  let ops :=
    [Start ok_env; Request (OwnApp 0) "/live.stream" 7%nat "raspberrypi";
     Stop Completes] in
  let w := run ops (boot node_globals LiveStream.default_config) in
  start_resolved w = [(0%nat, "http://raspberrypi:8000/live.stream")]
  /\ LiveStream.getLastFrame (self w)
     = Throw (Error LiveStream.last_frame_message)
  /\ is_lifecycle_error (Error LiveStream.last_frame_message) = true.
Proof. vm_compute. repeat split. Qed.

(** C6, as amended: [pause()] is guarded by the started flag alone.  In the
    idle and the stopped state it is rejected with its lifecycle error and
    changes nothing.  In the started state and, again, in the paused state
    it calls the camera's pause; when the callback fires the promise
    resolves and the state is paused; when the call throws nothing is
    changed, and while the callback is outstanding the state stays. *)
Theorem pause_by_state
  (g : global_object) (c : Config) (ops : list op) (cb : completion) (e : exn) :
  let w := run ops (boot g c) in
  match state w with
  | Idle | Stopped => pause cb w = (w, Rejected (Error pause_message))
  | Started | Paused =>
      snd (pause Completes w) = Resolved tt
      /\ state (fst (pause Completes w)) = Paused
      /\ camera_calls (fst (pause Completes w))
         = (camera_calls w ++ [CamPause])%list
      /\ pause (Fails e) w = (w, Rejected e)
      /\ state (fst (pause Hangs w)) = state w
  end
  /\ is_lifecycle_error (Error pause_message) = true.
Proof.
  intros w. split; [| reflexivity].
  destruct (reachable_invariant g c ops) as (_ & _ & H3 & H4).
  fold w in H3, H4. unfold core in *. cbn [fst snd] in *.
  unfold state, lifecycle_of, pause.
  destruct (LiveStream.streamStatus (self w)) as [st pa sp] eqn:E.
  cbn [started paused stopped] in *.
  destruct sp.
  - rewrite (H4 eq_refl). reflexivity.
  - destruct st; [| reflexivity].
    destruct (LiveStream.camera (self w)) eqn:Ec;
      [| exfalso; apply (H3 eq_refl); reflexivity].
    destruct pa; cbn; rewrite ?E; repeat split.
Qed.

(** In the paused state [pause()] is not rejected: it calls the camera
    again and resolves. *)
Lemma pause_when_paused :
  let w :=
    run [Start ok_env; Pause Completes]
        (boot node_globals LiveStream.default_config) in
  state w = Paused
  /\ snd (step (Pause Completes) w) = Promise (Resolved RUndefined)
  /\ camera_calls (fst (step (Pause Completes) w))
     = [CamStart LiveStream.default_config; CamPause; CamPause].
Proof. vm_compute. repeat split. Qed.

(** C9: [stop()] leaves the controller as it is when it is rejected or
    its callback is outstanding; when it resolves, the controller differs
    in the started and stopped flags and the camera handle only.  Either
    way the last frame, the config, the MIME type, the pathname and the
    server binding are unchanged, no route, subscription or listening
    server is touched, and [getSnapshot()] answers as before. *)
Theorem stop_changes_status_and_camera (w : World) (cb : completion) :
  let this := self w in
  let w' := fst (step (Stop cb) w) in
  self w'
  = match snd (step (Stop cb) w) with
    | Promise (Resolved _) =>
        LiveStream.with_camera None
          (LiveStream.with_streamStatus
             (mkStatus false (paused (LiveStream.streamStatus this)) true)
             this)
    | _ => this
    end
  /\ LiveStream.lastFrame (self w') = LiveStream.lastFrame this
  /\ LiveStream.config (self w') = LiveStream.config this
  /\ LiveStream.mimeType (self w') = LiveStream.mimeType this
  /\ LiveStream.pathname (self w') = LiveStream.pathname this
  /\ LiveStream.server (self w') = LiveStream.server this
  /\ LiveStream.getSnapshot (self w') = LiveStream.getSnapshot this
  /\ routes w' = routes w
  /\ subscribers w' = subscribers w
  /\ listening w' = listening w.
Proof.
  intros this w'. subst this w'. cbn [step]. unfold lift_promise, stop.
  destruct w as [[cam sv cfg mime path lf vb [st pa sp]] g n li ro sr su wr cc].
  cbn. destruct st; cbn; [| repeat split].
  destruct cam; cbn; [| repeat split].
  destruct cb; cbn; repeat split.
Qed.

(** A frame captured before [stop()] is what [getSnapshot()] encodes after it. *)
Lemma snapshot_survives_stop :
  let w :=
    run [Start ok_env; Request (OwnApp 0) "/live.stream" 7%nat "raspberrypi";
         Frame [xff; xd8; xff] (fun _ => false)]
        (boot node_globals LiveStream.default_config) in
  LiveStream.lastFrame (self w) = Some [xff; xd8; xff]
  /\ snd (step (Stop Completes) w) = Promise (Resolved RUndefined)
  /\ LiveStream.lastFrame (self (fst (step (Stop Completes) w)))
     = Some [xff; xd8; xff].
Proof. vm_compute. repeat split. Qed.

(* ================================================================== *)
(** * getSnapshot *)
(* ================================================================== *)

(** [getSnapshot()] always resolves: to null without a last frame, and
    otherwise to a data URI whose media type is the stored MIME type,
    printed as [null] when there is none. *)
Lemma getSnapshot_resolves (this : LiveStream.obj) :
  LiveStream.getSnapshot this
  = Resolved
      match LiveStream.lastFrame this with
      | Some frame =>
          Some ("data:" ++ LiveStream.nullable_to_string (LiveStream.mimeType this)
                ++ ";base64," ++ LiveStream.base64 frame)
      | None => None
      end.
Proof.
  unfold LiveStream.getSnapshot. destruct (LiveStream.lastFrame this); reflexivity.
Qed.

(** The MIME type is written by [setEncoding] only, and [setEncoding]
    succeeds only when the global object provides the list. *)
Lemma step_mimeType (o : op) (w : World) :
  get_global (globals w) "supportedEncodingTypes" = None ->
  let w' := fst (step o w) in
  globals w' = globals w
  /\ LiveStream.mimeType (self w') = LiveStream.mimeType (self w).
Proof.
  intros Hg. destruct (is_lifecycle_op o) eqn:Ho.
  - destruct (step_lifecycle_rest o w Ho) as (A & _ & B & _). auto.
  - destruct (step_other o w Ho) as (_ & _ & A & _). cbv zeta in *.
    split; [exact A |].
    destruct o; try discriminate Ho; cbn [step]; try reflexivity.
    + unfold lift_setter, LiveStream.setWidth. split_ifs; reflexivity.
    + unfold lift_setter, LiveStream.setHeight. split_ifs; reflexivity.
    + unfold lift_setter, LiveStream.setFPS. split_ifs; reflexivity.
    + change (lift_setter (LiveStream.setEncoding (globals w) enc (self w)) w)
        with (step (SetEncoding enc) w).
      rewrite (step_setEncoding_unbound enc w Hg). reflexivity.
    + unfold lift_setter, LiveStream.setQuality. split_ifs; reflexivity.
    + destruct (LiveStream.getLastFrame (self w)); reflexivity.
    + cbn [fst]. unfold request, handle_request. split_ifs; reflexivity.
    + cbn [fst]. rewrite emit_frame_self. destruct (subscribers w); reflexivity.
Qed.

Lemma run_mimeType (ops : list op) :
  forall w,
    get_global (globals w) "supportedEncodingTypes" = None ->
    LiveStream.mimeType (self (run ops w)) = LiveStream.mimeType (self w).
Proof.
  induction ops as [| o r IH]; intros w Hg; [reflexivity |].
  cbn [run]. destruct (step_mimeType o w Hg) as (A & B). cbv zeta in *.
  rewrite IH by (rewrite A; exact Hg). exact B.
Qed.

(** In a process whose global object does not provide the list, whatever
    is done with the controller, the MIME type stays null and a snapshot
    of a frame starts with [data:null;base64,]. *)
Lemma snapshot_media_type_null
  (g : global_object) (c : Config) (ops : list op) (frame : bytes) :
  get_global g "supportedEncodingTypes" = None ->
  let this := self (run ops (boot g c)) in
  LiveStream.lastFrame this = Some frame ->
  LiveStream.getSnapshot this
  = Resolved (Some ("data:null;base64," ++ LiveStream.base64 frame)).
Proof.
  intros Hg this Hf. unfold LiveStream.getSnapshot. rewrite Hf.
  unfold this. rewrite (run_mimeType ops (boot g c) Hg). reflexivity.
Qed.

Lemma snapshot_media_type_null_jpeg :
  let ops :=
    [SetEncoding "jpeg"; Start ok_env;
     Request (OwnApp 0) "/live.stream" 7%nat "raspberrypi";
     Frame [xff; xd8; xff] (fun _ => false); Stop Completes] in
  LiveStream.getSnapshot
    (self (run ops (boot node_globals LiveStream.default_config)))
  = Resolved (Some "data:null;base64,/9j/").
Proof.
  exact (snapshot_media_type_null node_globals LiveStream.default_config
           [SetEncoding "jpeg"; Start ok_env;
            Request (OwnApp 0) "/live.stream" 7%nat "raspberrypi";
            Frame [xff; xd8; xff] (fun _ => false); Stop Completes]
           [xff; xd8; xff] eq_refl eq_refl).
Defined.

(** [getSupportedEncodingTypes()] answers with the same string in every
    state of the controller. *)
Lemma getSupportedEncodingTypes_constant (w : World) :
  step GetSupportedEncodingTypes w
  = (w, Returns (RString (Some "JPEG,GIF,PNG,PPM,TGA,BMP"))).
Proof. reflexivity. Qed.

(** C5: a fresh controller with the default configuration, started, with
    one client and one frame of three bytes.  The encoding of the config
    is JPEG, the MIME type is still null, and the snapshot resolves to a
    data URI that starts with [data:null;base64,], not with
    [data:image/jpeg;base64,]. *)
Theorem snapshot_of_default_controller :
  let w :=
    run [Start ok_env; Request (OwnApp 0) "/live.stream" 7%nat "raspberrypi";
         Frame [xff; xd8; xff] (fun _ => false)]
        (boot node_globals LiveStream.default_config) in
  LiveStream.lastFrame (self w) = Some [xff; xd8; xff]
  /\ encoding (LiveStream.config (self w)) = "JPEG"
  /\ LiveStream.mimeType (self w) = None
  /\ LiveStream.getSnapshot (self w) = Resolved (Some "data:null;base64,/9j/")
  /\ prefix_of "data:image/jpeg;base64," "data:null;base64,/9j/" = false.
Proof. vm_compute. repeat split. Qed.

(* ================================================================== *)
(** * setPathname *)
(* ================================================================== *)

Lemma starts_with_slash_eqb (c : ascii) (r : string) :
  starts_with_slash (String c r) = Ascii.eqb c "/".
Proof. destruct c as [[] [] [] [] [] [] [] []]; reflexivity. Qed.

Lemma trim_end_keeps_head (c : ascii) (r : string) :
  is_white_space c = false -> trim_end (String c r) = String c (trim_end r).
Proof. intros H. cbn [trim_end]. rewrite H. reflexivity. Qed.

Lemma trim_end_twice (s : string) : trim_end (trim_end s) = trim_end s.
Proof.
  induction s as [| c r IH]; [reflexivity |].
  cbn [trim_end].
  destruct (is_white_space c && String.eqb (trim_end r) "") eqn:E;
    [reflexivity |].
  cbn [trim_end]. rewrite IH, E. reflexivity.
Qed.

Lemma trim_start_head (s : string) :
  match trim_start s with
  | String c _ => is_white_space c = false
  | EmptyString => True
  end.
Proof.
  induction s as [| c r IH]; [exact I |].
  cbn [trim_start]. destruct (is_white_space c) eqn:E; [exact IH | exact E].
Qed.

Lemma trim_start_fixed (s : string) :
  match s with
  | String c _ => is_white_space c = false
  | EmptyString => True
  end ->
  trim_start s = s.
Proof. destruct s as [| c r]; [reflexivity |]. cbn. intros ->. reflexivity. Qed.

(** Trimming twice is trimming once. *)
Lemma trim_twice (s : string) : trim (trim s) = trim s.
Proof.
  unfold trim. pose proof (trim_start_head s) as H.
  destruct (trim_start s) as [| c r]; [reflexivity |].
  rewrite (trim_end_keeps_head c r H).
  rewrite (trim_start_fixed (String c (trim_end r)) H).
  rewrite (trim_end_keeps_head c _ H), trim_end_twice. reflexivity.
Qed.

(** [setPathname] normalises: whatever the argument, the stored pathname
    starts with a slash and has no white space at either end, storing it
    a second time changes nothing, and nothing but the pathname is
    written.  A slash that comes after leading white space is not seen:
    the stored pathname then starts with two slashes. *)
Theorem setPathname_normalises (src : string) (this : LiveStream.obj) :
  let p := LiveStream.pathname (LiveStream.setPathname src this) in
  starts_with_slash p = true
  /\ trim p = p
  /\ LiveStream.setPathname p this = LiveStream.setPathname src this
  /\ LiveStream.setPathname src this = LiveStream.with_pathname p this
  /\ implb (negb (starts_with_slash src) && starts_with_slash (trim src))
           (prefix_of "//" p) = true.
Proof.
  intros p.
  assert (slash : is_white_space "/" = false) by reflexivity.
  assert (N : forall s, starts_with_slash s = true ->
                        trim s = s ->
                        LiveStream.setPathname s this
                        = LiveStream.with_pathname s this).
  { intros s H1 H2. unfold LiveStream.setPathname. rewrite H1, H2. reflexivity. }
  assert (W : LiveStream.setPathname src this = LiveStream.with_pathname p this)
    by reflexivity.
  assert (Hp : p = if starts_with_slash src then trim src else "/" ++ trim src)
    by reflexivity.
  clearbody p. rewrite W.
  destruct (starts_with_slash src) eqn:E; subst p.
  - assert (T : trim (trim src) = trim src) by apply trim_twice.
    assert (S : starts_with_slash (trim src) = true).
    { destruct src as [| c r]; [discriminate |].
      rewrite starts_with_slash_eqb in E. apply Ascii.eqb_eq in E. subst c.
      unfold trim. cbn [trim_start]. rewrite slash.
      rewrite (trim_end_keeps_head "/" r slash). reflexivity. }
    repeat split; auto.
  - assert (T : trim ("/" ++ trim src) = "/" ++ trim src).
    { change ("/" ++ trim src) with (String "/" (trim src)).
      unfold trim at 1. cbn [trim_start]. rewrite slash.
      rewrite (trim_end_keeps_head "/" _ slash).
      unfold trim. rewrite trim_end_twice. reflexivity. }
    repeat split; auto.
    cbn [negb andb]. destruct (trim src) as [| c r]; [reflexivity |].
    rewrite starts_with_slash_eqb. cbn.
    destruct (Ascii.eqb c "/") eqn:Ec; [| reflexivity].
    apply Ascii.eqb_eq in Ec. subst c. reflexivity.
Qed.

(* ================================================================== *)
(** * Numerals in strings *)
(* ================================================================== *)

Lemma string_append_assoc (a b c : string) : (a ++ b) ++ c = a ++ (b ++ c).
Proof. induction a as [| x a IH]; [reflexivity |]. cbn. rewrite IH. reflexivity. Qed.

Lemma digits_fuel_acc (f : nat) :
  forall n acc, digits_fuel f n acc = digits_fuel f n "" ++ acc.
Proof.
  induction f as [| f IH]; intros n acc; [reflexivity |].
  cbn [digits_fuel]. destruct (n <? 10); [reflexivity |].
  rewrite (IH _ (String _ acc)), (IH _ (String _ "")).
  rewrite string_append_assoc. reflexivity.
Qed.

Lemma digit_char_after_digit (d : Z) (r : string) :
  0 <= d < 10 -> after_digit (String (digit_char d) r).
Proof.
  intros H.
  destruct (digit_cases d H) as [-> | [-> | [-> | [-> | [-> | [-> | [-> |
                                [-> | [-> | ->]]]]]]]]]; split; reflexivity.
Qed.

Lemma digits_fuel_head_text (f : nat) :
  forall n rest,
    after_digit rest ->
    exists c r,
      digits_fuel (S f) n rest = String c r
      /\ is_digit c = true /\ after_digit r.
Proof.
  induction f as [| f IH]; intros n rest Hrest.
  - exists (digit_char (n mod 10)), rest. simpl.
    destruct (n <? 10); auto using digit_char_is_digit, mod10_range.
  - change (digits_fuel (S (S f)) n rest)
      with (if n <? 10 then String (digit_char (n mod 10)) rest
            else digits_fuel (S f) (n / 10) (String (digit_char (n mod 10)) rest)).
    destruct (n <? 10).
    + exists (digit_char (n mod 10)), rest.
      auto using digit_char_is_digit, mod10_range.
    + apply IH. apply digit_char_after_digit, mod10_range.
Qed.

Lemma parseInt_string_digits (c : ascii) (r : string) :
  is_digit c = true -> after_digit r ->
  parseInt_string (String c r)
  = match parse_digits 10 (String c r) None with
    | Some m => Int m
    | None => NaN
    end.
Proof.
  intros Hc Hr. unfold parseInt_string.
  cbn [trim_start]. rewrite (digit_not_space c Hc).
  rewrite (digit_not_char c "-" Hc eq_refl), (digit_not_char c "+" Hc eq_refl).
  destruct r as [| x r].
  - destruct (parse_digits 10 (String c "") None) as [m |];
      [f_equal; lia | reflexivity].
  - destruct Hr as (Hx & HX). rewrite Hx, HX, andb_false_r.
    destruct (parse_digits 10 (String c (String x r)) None) as [m |];
      [f_equal; lia | reflexivity].
Qed.

Lemma not_digit_no_value (c : ascii) :
  is_digit c = false -> digit_value 10 c = None.
Proof.
  unfold is_digit, digit_value. intros H. rewrite H.
  destruct ((97 <=? code c) && (code c <=? 122)) eqn:E1.
  - apply andb_true_iff in E1 as [A B]. apply Z.leb_le in A.
    destruct (Z.ltb_spec (code c - 87) 10); [lia | reflexivity].
  - destruct ((65 <=? code c) && (code c <=? 90)) eqn:E2; [| reflexivity].
    apply andb_true_iff in E2 as [A B]. apply Z.leb_le in A.
    destruct (Z.ltb_spec (code c - 55) 10); [lia | reflexivity].
Qed.

Lemma ends_numeral_after_digit (s : string) : ends_numeral s -> after_digit s.
Proof. destruct s; [exact (fun H => H) |]. cbn. tauto. Qed.

Lemma parse_digits_end (s : string) (a : option Z) :
  ends_numeral s -> parse_digits 10 s a = a.
Proof.
  destruct s as [| c r]; [reflexivity |]. intros (H & _).
  cbn [parse_digits]. rewrite (not_digit_no_value c H). reflexivity.
Qed.

Lemma trim_start_white (ws t : string) :
  all_chars is_white_space ws = true -> trim_start (ws ++ t) = trim_start t.
Proof.
  induction ws as [| c r IH]; [reflexivity |]. cbn.
  intros H. apply andb_true_iff in H as [Hc Hr]. rewrite Hc. exact (IH Hr).
Qed.

Lemma parseInt_string_trim_start (s : string) :
  parseInt_string (trim_start s) = parseInt_string s.
Proof.
  unfold parseInt_string at 1.
  rewrite (trim_start_fixed (trim_start s) (trim_start_head s)). reflexivity.
Qed.

(** [parseInt] reads a decimal numeral through leading white space and up
    to the text that follows it. *)
Lemma parseInt_leading_numeral (x : Z) (ws suffix : string) :
  0 <= x ->
  all_chars is_white_space ws = true ->
  ends_numeral suffix ->
  parseInt_string (ws ++ decimal x ++ suffix) = Int x.
Proof.
  intros Hx Hws Hs.
  rewrite <- parseInt_string_trim_start, (trim_start_white ws _ Hws),
    parseInt_string_trim_start.
  unfold decimal. rewrite <- digits_fuel_acc.
  destruct (digits_fuel_head_text (Z.to_nat (Z.log2 x)) x suffix
              (ends_numeral_after_digit suffix Hs)) as (c & r & E & Hc & Hr).
  destruct (parse_digits_fuel (Z.to_nat (Z.log2 x)) x suffix) as (k & _ & P).
  { split; [assumption | apply decimal_fuel; assumption]. }
  specialize (P None). rewrite (parse_digits_end suffix _ Hs) in P.
  rewrite E in P |- *. rewrite (parseInt_string_digits c r Hc Hr), P.
  cbn [read]. f_equal. lia.
Qed.

(** A string argument that holds a decimal numeral, after white space and
    before any other text, is to every setter what the number is: the
    bounded setters validate and store the numeral, and [setPort] stores
    it.  [register] stores it too, also when it is zero: the string is
    truthy where the number [0] is not. *)
Theorem setters_read_leading_numeral
  (x : Z) (ws suffix : string) (v : value) (a : option app)
  (this : LiveStream.obj) :
  0 <= x <= 2 ^ 53 ->
  all_chars is_white_space ws = true ->
  ends_numeral suffix ->
  let s := VStr (ws ++ decimal x ++ suffix) in
  let n := VNum (Int x) in
  LiveStream.setWidth s v this = LiveStream.setWidth n v this
  /\ LiveStream.setHeight s v this = LiveStream.setHeight n v this
  /\ LiveStream.setFPS s this = LiveStream.setFPS n this
  /\ LiveStream.setQuality s this = LiveStream.setQuality n this
  /\ LiveStream.setPort s this
     = LiveStream.with_server
         (mkServer (server_app (LiveStream.server this)) (Int x)) this
  /\ LiveStream.register a s this
     = LiveStream.with_server (mkServer a (Int x)) this.
Proof.
  intros Hx Hws Hs s n. subst s n.
  set (t := ws ++ decimal x ++ suffix).
  assert (Ps : parseInt (VStr t) = Int x).
  { apply parseInt_leading_numeral; [lia | assumption ..]. }
  assert (Pn : parseInt (VNum (Int x)) = Int x).
  { apply parseInt_safe_integer. lia. }
  assert (T : truthy (VStr t) = true).
  { unfold t. cbn [truthy].
    destruct (digits_fuel_head_text (Z.to_nat (Z.log2 x)) x ""  I)
      as (c & r & E & _).
    fold (decimal x) in E. rewrite E.
    destruct ws; reflexivity. }
  unfold LiveStream.setWidth, LiveStream.setHeight, LiveStream.setFPS,
    LiveStream.setQuality, LiveStream.setPort, LiveStream.register.
  cbn [default_arg]. rewrite T, Ps, Pn.
  repeat split.
Qed.

Lemma setters_read_30fps :
  let this := LiveStream.new LiveStream.default_config in
  LiveStream.setFPS (VStr " 30fps") this
  = Ok (LiveStream.with_config
          (mkConfig (Int 1280) (Int 720) (Int 30) "JPEG" (Int 25)) this)
  /\ LiveStream.register (Some (ExternalApp 0)) (VStr "0") this
     = LiveStream.with_server (mkServer (Some (ExternalApp 0)) (Int 0)) this.
Proof.
  pose proof (setters_read_leading_numeral 30 " " "fps" VUndefined None
                (LiveStream.new LiveStream.default_config)
                ltac:(vm_compute; split; discriminate) eq_refl
                ltac:(repeat split))
    as (_ & _ & F & _).
  pose proof (setters_read_leading_numeral 0 "" "" VUndefined
                (Some (ExternalApp 0))
                (LiveStream.new LiveStream.default_config)
                ltac:(vm_compute; split; discriminate) eq_refl I)
    as (_ & _ & _ & _ & _ & R).
  cbv zeta in F, R. split; [exact (eq_trans F eq_refl) | exact R].
Defined.

(* ================================================================== *)
(** * Delivery of frames *)
(* ================================================================== *)

Lemma frameHandler_written (c : client) (b : bool) (d : bytes) (w : World) :
  written (fst (frameHandler c b d w))
  = (written w
     ++ (if b then [] else part (LiveStream.mimeType (self w)) d c))%list.
Proof.
  unfold frameHandler. destruct b; cbn; [rewrite app_nil_r |]; reflexivity.
Qed.

Lemma fold_frameHandler_written (d : bytes) (wf : client -> bool)
  (subs : list client) :
  forall w,
    written (fold_left (fun w c => fst (frameHandler c (wf c) d w)) subs w)
    = (written w ++ parts (LiveStream.mimeType (self w)) d wf subs)%list.
Proof.
  unfold parts. induction subs as [| c r IH]; intros w; cbn [fold_left flat_map].
  - rewrite app_nil_r. reflexivity.
  - rewrite IH, frameHandler_written, frameHandler_self. cbn [LiveStream.mimeType
      LiveStream.with_lastFrame]. rewrite <- app_assoc. reflexivity.
Qed.

(** What [parts] holds for one connection. *)
Lemma parts_of_connection (mime : option string) (d : bytes)
  (wf : client -> bool) (c : client) (subs : list client) :
  map snd (filter (fun p => Nat.eqb (fst p) c) (parts mime d wf subs))
  = if wf c then []
    else flat_map
           (fun _ => [Text (part_header mime (List.length d)); Data d])
           (filter (fun c' => Nat.eqb c' c) subs).
Proof.
  unfold parts. induction subs as [| c' r IH]; cbn [flat_map filter].
  - destruct (wf c); reflexivity.
  - rewrite filter_app, map_app.
    match goal with
    | |- (?a ++ _)%list = _ => etransitivity; [exact (f_equal (List.app a) IH) |]
    end.
    destruct (Nat.eqb_spec c' c) as [-> | Hne].
    + destruct (wf c); [reflexivity |].
      cbn. rewrite Nat.eqb_refl. reflexivity.
    + destruct (wf c'); cbn; [reflexivity |].
      destruct (Nat.eqb_spec c' c); [contradiction | reflexivity].
Qed.

Lemma emit_frame_written (d : bytes) (wf : client -> bool) (w : World) :
  written (emit_frame d wf w)
  = (written w
     ++ parts (LiveStream.mimeType (self w)) d wf (subscribers w))%list.
Proof. apply fold_frameHandler_written. Qed.

Lemma emit_frame_received (d : bytes) (wf : client -> bool) (w : World)
  (c : client) :
  received c (emit_frame d wf w)
  = (received c w
     ++ (if wf c then []
         else flat_map
                (fun _ =>
                   [Text (part_header (LiveStream.mimeType (self w))
                            (List.length d));
                    Data d])
                (filter (fun c' => Nat.eqb c' c) (subscribers w))))%list.
Proof.
  unfold received. rewrite emit_frame_written, filter_app, map_app.
  rewrite parts_of_connection. reflexivity.
Qed.


Lemma filter_absent (c : client) (subs : list client) :
  ~ In c subs -> filter (fun c' => Nat.eqb c' c) subs = [].
Proof.
  induction subs as [| x r IH]; [reflexivity |]. cbn. intros H.
  destruct (Nat.eqb_spec x c) as [-> | _]; [exfalso; auto |].
  apply IH. auto.
Qed.

(** Steps other than requests, disconnections and frames write nothing
    and subscribe nobody. *)
Lemma step_quiet (o : op) (w : World) :
  match o with
  | Request _ _ _ _ | Close _ | Frame _ _ => True
  | _ =>
      written (fst (step o w)) = written w
      /\ subscribers (fst (step o w)) = subscribers w
  end.
Proof.
  destruct o; try exact I; cbn [step]; unfold lift_setter, lift_promise;
    cbn [fst]; try (split; reflexivity).
  - unfold LiveStream.setWidth. split_ifs; split; reflexivity.
  - unfold LiveStream.setHeight. split_ifs; split; reflexivity.
  - unfold LiveStream.setFPS. split_ifs; split; reflexivity.
  - unfold LiveStream.setEncoding. split_ifs; split; reflexivity.
  - unfold LiveStream.setQuality. split_ifs; split; reflexivity.
  - destruct (LiveStream.getLastFrame (self w)); split; reflexivity.
  - unfold start, initialize, listen. destruct env as [rq ex li ca]. cbn.
    destruct rq, ex, li, ca; split_ifs; cbn; split; reflexivity.
  - unfold pause. destruct cb; split_ifs; cbn; split; reflexivity.
  - unfold resume. destruct cb; split_ifs; cbn; split; reflexivity.
  - unfold stop. destruct cb; split_ifs; cbn; split; reflexivity.
Qed.

(** What a request writes and whom it subscribes. *)
Lemma request_io
  (a : app) (path : string) (c : client) (hostname : string) (w : World) :
  let w' := request a path c hostname w in
  (written w' = written w
   \/ written w' = (written w ++ [(c, Head 200 stream_headers)])%list)
  /\ (subscribers w' = subscribers w
      \/ subscribers w' = (subscribers w ++ [c])%list).
Proof.
  unfold request. destruct (find_route a path 0 (routes w)); [| cbn; auto].
  unfold handle_request. cbn [self with_written].
  destruct (LiveStream.camera (self w)); [| cbn; auto].
  match goal with
  | |- context [if ?b then _ else _] => destruct b
  end; cbn; auto.
Qed.

Lemma step_unsubscribed (c : client) (o : op) (w : World) :
  ~ In c (subscribers w) ->
  is_request_of c o = false ->
  received c (fst (step o w)) = received c w
  /\ ~ In c (subscribers (fst (step o w))).
Proof.
  intros Hc Ho. pose proof (step_quiet o w) as Q.
  destruct o; try (destruct Q as (Qw & Qs); unfold received;
                   rewrite Qw, Qs; split; [reflexivity | exact Hc]).
  - cbn [step fst]. cbn [is_request_of] in Ho. apply Nat.eqb_neq in Ho.
    destruct (request_io a path c0 hostname w) as ([W | W] & [S | S]);
      cbv zeta in W, S; unfold received; rewrite W, S;
      try rewrite filter_app, map_app; cbn [filter fst];
      try (destruct (Nat.eqb_spec c0 c) as [E | _]; [contradiction |]);
      cbn; rewrite ?app_nil_r; split; try reflexivity; try exact Hc;
      rewrite in_app_iff; cbn; intuition congruence.
  - cbn [step fst]. unfold close, received. cbn. split; [reflexivity |].
    intros H. apply filter_In in H as [H _]. contradiction.
  - cbn [step fst].
    destruct (emit_frame_rest frameData write_fails w) as (_ & _ & _ & S & _).
    cbv zeta in S.
    rewrite S, emit_frame_received, (filter_absent c _ Hc).
    destruct (write_fails c); cbn; rewrite app_nil_r; split; auto.
Qed.

(** After its disconnection a connection receives nothing any more,
    whatever is done and however many frames are emitted, for as long as
    no new request is made on it. *)
Theorem closed_connection_receives_nothing
  (c : client) (ops : list op) (w : World) :
  forallb (fun o => negb (is_request_of c o)) ops = true ->
  received c (run ops (fst (step (Close c) w))) = received c w
  /\ ~ In c (subscribers (run ops (fst (step (Close c) w)))).
Proof.
  intros H.
  assert (G : forall ops v,
             forallb (fun o => negb (is_request_of c o)) ops = true ->
             ~ In c (subscribers v) ->
             received c (run ops v) = received c v
             /\ ~ In c (subscribers (run ops v))).
  { clear. induction ops as [| o r IH]; intros v Hops Hv; [split; auto |].
    cbn [forallb] in Hops. apply andb_true_iff in Hops as [Ho Hr].
    apply negb_true_iff in Ho.
    destruct (step_unsubscribed c o v Hv Ho) as (R & S).
    cbn [run]. destruct (IH _ Hr S) as (R' & S'). split; [congruence | exact S']. }
  destruct (G ops (fst (step (Close c) w)) H) as (R & S).
  - cbn [step fst]. unfold close. cbn. intros X.
    apply filter_In in X as [_ X]. rewrite Nat.eqb_refl in X. discriminate.
  - split; [rewrite R; reflexivity | exact S].
Qed.

Lemma closed_connection_example :
  let w :=
    run [Start ok_env; Request (OwnApp 0) "/live.stream" 1%nat "pi";
         Request (OwnApp 0) "/live.stream" 2%nat "pi";
         Frame [xff; xd8] (fun _ => false)]
        (boot node_globals LiveStream.default_config) in
  let ops :=
    [Frame [xff; xd9] (fun _ => false); Pause Completes;
     Frame [x00] (fun c => Nat.eqb c 2)] in
  received 1%nat (run ops (fst (step (Close 1%nat) w))) = received 1%nat w
  /\ List.length (received 1%nat w) = 3%nat
  /\ List.length (received 2%nat (run ops (fst (step (Close 1%nat) w)))) = 5%nat.
Proof.
  split; [| vm_compute; split; reflexivity].
  exact (proj1 (closed_connection_receives_nothing 1%nat
                  [Frame [xff; xd9] (fun _ => false); Pause Completes;
                   Frame [x00] (fun c => Nat.eqb c 2)]
                  (run [Start ok_env;
                        Request (OwnApp 0) "/live.stream" 1%nat "pi";
                        Request (OwnApp 0) "/live.stream" 2%nat "pi";
                        Frame [xff; xd8] (fun _ => false)]
                       (boot node_globals LiveStream.default_config))
                  eq_refl)).
Defined.




(* ================================================================== *)
(** * The lifecycle as a state machine *)
(* ================================================================== *)

Lemma step_flags_consistent (o : op) (w : World) :
  flags_consistent w -> flags_consistent (fst (step o w)).
Proof.
  intros Hw. destruct (is_lifecycle_op o) eqn:Ho.
  - destruct w as [[cam [ap port] cfg mime path lf vb [st pa sp]]
                     g n li ro sr su wr cc].
    unfold flags_consistent, core in *. cbn in Hw. destruct Hw as (H1 & H2).
    destruct o; try discriminate Ho; cbn [step]; unfold lift_promise; cbn [fst].
    + unfold start, initialize, listen. destruct env as [rq ex li' ca]. cbn.
      destruct sp; [close_invariant |].
      destruct rq; [close_invariant |].
      destruct ap as [a |]; cbn.
      * destruct ca; close_invariant.
      * destruct ex; [close_invariant |].
        destruct li', ca; close_invariant.
    + unfold pause. cbn. destruct st; [| close_invariant].
      destruct cam; [| close_invariant].
      destruct cb; close_invariant.
    + unfold resume. cbn. destruct pa; [| close_invariant].
      destruct cam; [| close_invariant].
      destruct cb; close_invariant.
    + unfold stop. cbn. destruct st; [| close_invariant].
      destruct cam; [| close_invariant].
      destruct cb; close_invariant.
  - destruct (step_other o w Ho) as (C & _). cbv zeta in C.
    unfold flags_consistent. rewrite C. exact Hw.
Qed.

Lemma reachable_flags (g : global_object) (c : Config) (ops : list op) :
  invariant (run ops (boot g c)) /\ flags_consistent (run ops (boot g c)).
Proof.
  split; [apply reachable_invariant |].
  assert (G : forall ops w, flags_consistent w -> flags_consistent (run ops w)).
  { clear. induction ops as [| o r IH]; intros w H; [exact H |].
    cbn [run]. apply IH, step_flags_consistent, H. }
  apply G. unfold flags_consistent, core. cbn. split; intros; congruence.
Qed.

(** The status flags implement the state machine of [lifecycle_table] in
    every state the controller can reach.  A call that the table rejects
    changes nothing at all and is rejected with [rejection].  A call that
    the table accepts leads to the state of the table when the camera and
    the server do their work, and to that state or to no change of state
    otherwise; setters, getters and events never change the state.  In
    particular [start()] is accepted again in the started and in the
    paused state, and [pause()] in the paused state. *)
Theorem lifecycle_follows_table
  (g : global_object) (c : Config) (ops : list op) (o : op) :
  let w := run ops (boot g c) in
  let w' := fst (step o w) in
  match lifecycle_table o (state w) with
  | None => w' = w /\ snd (step o w) = Promise (Rejected (rejection o w))
  | Some s =>
      if cooperative o
      then state w' = s /\ snd (step o w) = accepted o
      else state w' = s \/ state w' = state w
  end.
Proof.
  intros w w'. subst w'.
  destruct (reachable_flags g c ops) as ((_ & _ & I3 & I4) & (F1 & F2)).
  fold w in I3, I4, F1, F2. clearbody w.
  destruct (is_lifecycle_op o) eqn:Ho.
  - destruct w as [[cam [ap port] cfg mime path lf vb [st pa sp]]
                     gl n li ro sr su wr cc].
    unfold core, state, lifecycle_of, rejection in *. cbn in I3, I4, F1, F2.
    cbn [self LiveStream.streamStatus started paused stopped snd fst
         LiveStream.camera].
    destruct o; try discriminate Ho; cbn [step]; unfold lift_promise;
      cbn [fst snd].
    + unfold start, initialize, listen. destruct env as [rq ex li' ca]. cbn.
      destruct sp.
      * cbn. split; reflexivity.
      * destruct st, pa; cbn;
          destruct rq, ap, ex, li', ca; cbn; auto;
          try (destruct F1 as [F1 | F1]; [reflexivity | discriminate ..]).
    + unfold pause. cbn.
      destruct sp; [rewrite (I4 eq_refl); cbn; split; reflexivity |].
      destruct st; cbn; [| destruct pa; split; reflexivity].
      destruct cam; [| exfalso; apply (I3 eq_refl); reflexivity].
      destruct pa, cb; cbn; auto.
    + unfold resume. cbn.
      destruct sp.
      * rewrite (F2 eq_refl). destruct pa; cbn; split; reflexivity.
      * destruct st; cbn.
        -- destruct cam; [| exfalso; apply (I3 eq_refl); reflexivity].
           destruct pa, cb; cbn; auto.
        -- destruct pa; [destruct F1 as [F1 | F1]; [reflexivity | discriminate ..] |].
           cbn. split; reflexivity.
    + unfold stop. cbn.
      destruct sp; [rewrite (I4 eq_refl); cbn; split; reflexivity |].
      destruct st; cbn; [| destruct pa; split; reflexivity].
      destruct cam; [| exfalso; apply (I3 eq_refl); reflexivity].
      destruct pa, cb; cbn; auto.
  - destruct (step_other o w Ho) as (C & _). cbv zeta in C.
    assert (S : state (fst (step o w)) = state w).
    { unfold state. unfold core in C. congruence. }
    assert (N : cooperative o = false) by (destruct o; try discriminate Ho; reflexivity).
    assert (T : lifecycle_table o (state w) = Some (state w)).
    { destruct o; try discriminate Ho; destruct (state w); reflexivity. }
    rewrite T, N, S. auto.
Qed.

(** [resume()] is guarded by the paused flag, which [stop()] leaves set:
    after a paused stream was stopped, [resume()] passes its guard and
    fails on the missing camera.  It is rejected with a [TypeError], not
    with a lifecycle error, and changes nothing. *)
Theorem resume_after_stop_of_paused
  (g : global_object) (c : Config) (ops : list op) (cb : completion) :
  state (run ops (boot g c)) = Paused ->
  let w' := fst (step (Stop Completes) (run ops (boot g c))) in
  state w' = Stopped
  /\ step (Resume cb) w' = (w', Promise (Rejected (null_call "resume")))
  /\ is_lifecycle_error (null_call "resume") = false.
Proof.
  intros H w'. subst w'.
  destruct (reachable_flags g c ops) as ((_ & _ & I3 & _) & _).
  revert H I3. generalize (run ops (boot g c)) as w. intros w H I3.
  destruct w as [[cam [ap port] cfg mime path lf vb [st pa sp]]
                   gl n li ro sr su wr cc].
  unfold core, state, lifecycle_of in *. cbn in H, I3.
  destruct sp; [discriminate |]. destruct st; [| discriminate].
  destruct pa; [| discriminate].
  destruct cam; [| exfalso; apply (I3 eq_refl); reflexivity].
  cbn. repeat split.
Qed.

Lemma resume_after_stop_of_paused_run :
  let w' :=
    fst (step (Stop Completes)
           (run [Start ok_env; Pause Completes]
                (boot node_globals LiveStream.default_config))) in
  state w' = Stopped
  /\ step (Resume Completes) w'
     = (w', Promise (Rejected (null_call "resume")))
  /\ is_lifecycle_error (null_call "resume") = false.
Proof.
  exact (resume_after_stop_of_paused node_globals LiveStream.default_config
           [Start ok_env; Pause Completes] Completes eq_refl).
Defined.

(* ================================================================== *)
(** * Which [start()] a request resolves *)
(* ================================================================== *)

Lemma app_eqb_eq (a b : app) : app_eqb a b = true -> a = b.
Proof.
  destruct a, b; cbn; try discriminate; intros H; apply Nat.eqb_eq in H;
    congruence.
Qed.

Lemma app_eqb_refl (a : app) : app_eqb a a = true.
Proof. destruct a; cbn; apply Nat.eqb_refl. Qed.

Lemma find_route_found (a : app) (path : string) (l : list route) :
  forall k i,
    find_route a path k l = Some i ->
    (k <= i)%nat
    /\ exists r,
         nth_error l (i - k) = Some r
         /\ route_app r = a /\ route_path r = path.
Proof.
  induction l as [| r l IH]; intros k i H; [discriminate |].
  cbn [find_route] in H.
  destruct (app_eqb (route_app r) a && String.eqb (route_path r) path) eqn:E.
  - injection H as <-. split; [lia |]. exists r.
    rewrite Nat.sub_diag. apply andb_true_iff in E as [E1 E2].
    apply app_eqb_eq in E1. apply String.eqb_eq in E2. auto.
  - destruct (IH _ _ H) as (Hk & r' & N & A & P). split; [lia |].
    exists r'. replace (i - k)%nat with (S (i - S k)) by lia. auto.
Qed.

Lemma find_route_extend (a : app) (path : string) (l l' : list route) :
  forall k i,
    find_route a path k l = Some i ->
    find_route a path k (l ++ l') = Some i.
Proof.
  induction l as [| r l IH]; intros k i H; [discriminate |].
  cbn [find_route List.app] in *.
  destruct (app_eqb (route_app r) a && String.eqb (route_path r) path);
    auto.
Qed.

(** The first route that matches comes no later than any that matches. *)
Lemma find_route_first (l : list route) :
  forall k i r,
    nth_error l i = Some r ->
    exists j,
      find_route (route_app r) (route_path r) k l = Some j
      /\ (j <= k + i)%nat.
Proof.
  induction l as [| x l IH]; intros k i r H; [destruct i; discriminate |].
  cbn [find_route].
  destruct (app_eqb (route_app x) (route_app r)
            && String.eqb (route_path x) (route_path r)) eqn:E.
  - exists k. split; [reflexivity | lia].
  - destruct i as [| i].
    + injection H as ->. rewrite app_eqb_refl, String.eqb_refl in E.
      discriminate.
    + destruct (IH (S k) i r H) as (j & F & L). exists j. split; [exact F | lia].
Qed.

Lemma first_route_kept (w w' : World) (i : nat) (extra : list route) :
  routes w' = (routes w ++ extra)%list ->
  first_route w i -> first_route w' i.
Proof.
  intros E (r & N & F). exists r. rewrite E. split.
  - rewrite nth_error_app1; [exact N |].
    apply nth_error_Some. congruence.
  - apply find_route_extend, F.
Qed.

Lemma not_resolved_not_in (i : nat) (l : list (nat * string)) :
  is_resolved i l = false -> ~ In i (map fst l).
Proof.
  unfold is_resolved. intros H X. apply in_map_iff in X as ((j & u) & E & X).
  cbn in E. subst j.
  assert (T : existsb (fun p => Nat.eqb (fst p) i) l = true).
  { apply existsb_exists. exists (i, u). split; [exact X | apply Nat.eqb_refl]. }
  congruence.
Qed.

Lemma NoDup_snoc {A : Type} (l : list A) (x : A) :
  NoDup l -> ~ In x l -> NoDup (l ++ [x]).
Proof.
  induction l as [| y l IH]; intros H N; cbn.
  - constructor; [intros [] | constructor].
  - inversion H as [| ? ? Hy Hl]; subst. constructor.
    + rewrite in_app_iff. cbn. intros [X | [X | []]]; [auto |].
      subst. apply N. left. reflexivity.
    + apply IH; [exact Hl |]. intros X. apply N. right. exact X.
Qed.

(** What a step does to the routes and to the resolved promises. *)
Lemma step_routes_resolved (o : op) (w : World) :
  let w' := fst (step o w) in
  (start_resolved w' = start_resolved w
   /\ exists extra, routes w' = (routes w ++ extra)%list)
  \/ (routes w' = routes w
      /\ exists a path i u,
           find_route a path 0 (routes w) = Some i
           /\ is_resolved i (start_resolved w) = false
           /\ start_resolved w' = (start_resolved w ++ [(i, u)])%list).
Proof.
  cbv zeta. destruct (is_lifecycle_op o) eqn:Ho.
  - destruct (step_lifecycle_rest o w Ho) as (_ & S & _ & _ & [R | ((r & R) & _)]).
    + left. split; [exact S |]. exists []. rewrite app_nil_r. exact R.
    + left. split; [exact S |]. exists [r]. exact R.
  - destruct (step_other o w Ho) as (_ & R & _ & _). cbv zeta in R.
    assert (Same : start_resolved (fst (step o w)) = start_resolved w ->
                   (start_resolved (fst (step o w)) = start_resolved w
                    /\ exists extra,
                         routes (fst (step o w)) = (routes w ++ extra)%list)
                   \/ (routes (fst (step o w)) = routes w
                       /\ exists a path i u,
                            find_route a path 0 (routes w) = Some i
                            /\ is_resolved i (start_resolved w) = false
                            /\ start_resolved (fst (step o w))
                               = (start_resolved w ++ [(i, u)])%list)).
    { intros S. left. split; [exact S |]. exists []. rewrite app_nil_r. exact R. }
    destruct o; try discriminate Ho; cbn [step] in *;
      try (apply Same; reflexivity);
      try (apply Same; unfold lift_setter;
           match goal with
           | |- context [match ?r with Ok _ => _ | Throw _ => _ end] =>
               destruct r
           end; reflexivity).
    + cbn [fst] in *. unfold request in *.
      destruct (find_route a path 0 (routes w)) as [i |] eqn:F;
        [| apply Same; reflexivity].
      unfold handle_request in *. cbn [self with_written] in *.
      destruct (LiveStream.camera (self w)); [| apply Same; reflexivity].
      cbn [start_resolved with_subscribers with_written] in *.
      destruct (is_resolved i (start_resolved w)) eqn:E;
        [apply Same; reflexivity |].
      right. split; [reflexivity |].
      exists a, path, i, (stream_url hostname (self w)). auto.
    + apply Same. cbn [fst].
      destruct (emit_frame_rest frameData write_fails w) as (_ & _ & S & _).
      exact S.
Qed.

Lemma step_resolution (o : op) (w : World) :
  resolution_invariant w -> resolution_invariant (fst (step o w)).
Proof.
  intros (D & F).
  destruct (step_routes_resolved o w) as [(S & extra & R) | (R & a & p & i & u & Fi & N & S)];
    cbv zeta in *; unfold resolution_invariant; rewrite S.
  - split; [exact D |]. intros j v H.
    apply (first_route_kept w _ j extra R), (F j v H).
  - split.
    + rewrite map_app. apply NoDup_snoc; [exact D |].
      apply not_resolved_not_in, N.
    + intros j v H.
      apply (first_route_kept w _ j []); [rewrite app_nil_r; exact R |].
      apply in_app_iff in H as [H | [H | []]]; [exact (F j v H) |].
      injection H as <- <-.
      destruct (find_route_found a p (routes w) 0 i Fi) as (_ & r & Nr & <- & <-).
      rewrite Nat.sub_0_r in Nr. exists r. auto.
Qed.

(** Every resolved [start()] is resolved once, and its route is the first
    one of its application and path. *)
Lemma reachable_resolution (g : global_object) (c : Config) (ops : list op) :
  resolution_invariant (run ops (boot g c)).
Proof.
  assert (G : forall ops w, resolution_invariant w ->
                            resolution_invariant (run ops w)).
  { clear. induction ops as [| o r IH]; intros w H; [exact H |].
    cbn [run]. apply IH, step_resolution, H. }
  apply G. split; cbn; [constructor | intros ? ? []].
Qed.

(** Every [start()] whose camera callback fires registers the route anew;
    requests go to the first route of an application and path.  So when
    two routes have the same application and path, the [start()] that
    registered the later one is never resolved, whatever happens. *)
Theorem later_start_never_resolves
  (g : global_object) (c : Config) (ops : list op)
  (i j : nat) (ri rj : route) :
  nth_error (routes (run ops (boot g c))) i = Some ri ->
  nth_error (routes (run ops (boot g c))) j = Some rj ->
  (i < j)%nat ->
  route_app ri = route_app rj ->
  route_path ri = route_path rj ->
  is_resolved j (start_resolved (run ops (boot g c))) = false.
Proof.
  intros Hi Hj Lt Ea Ep.
  destruct (reachable_resolution g c ops) as (_ & F).
  destruct (is_resolved j _) eqn:E; [| reflexivity]. exfalso.
  unfold is_resolved in E. apply existsb_exists in E as ((j' & u) & In & Ej).
  cbn in Ej. apply Nat.eqb_eq in Ej. subst j'.
  destruct (F j u In) as (r & Nr & Fr).
  assert (r = rj) by congruence. subst r.
  destruct (find_route_first _ 0 i ri Hi) as (k & Fk & Le).
  rewrite Ea, Ep, Fr in Fk. injection Fk as <-. lia.
Qed.

Lemma second_start_never_resolves :
  let w :=
    run [Start ok_env; Start ok_env;
         Request (OwnApp 0) "/live.stream" 1%nat "pi";
         Request (OwnApp 0) "/live.stream" 2%nat "pi"]
        (boot node_globals LiveStream.default_config) in
  List.length (routes w) = 2%nat
  /\ is_resolved 0 (start_resolved w) = true
  /\ is_resolved 1 (start_resolved w) = false.
Proof.
  split; [reflexivity |]. split; [reflexivity |].
  exact (later_start_never_resolves node_globals LiveStream.default_config
           [Start ok_env; Start ok_env;
            Request (OwnApp 0) "/live.stream" 1%nat "pi";
            Request (OwnApp 0) "/live.stream" 2%nat "pi"]
           0 1 (mkRoute (OwnApp 0) "/live.stream")
           (mkRoute (OwnApp 0) "/live.stream")
           eq_refl eq_refl ltac:(repeat constructor) eq_refl eq_refl).
Defined.

(* ================================================================== *)
(** * The web server *)
(* ================================================================== *)

Lemma fold_frameHandler_apps (d : bytes) (wf : client -> bool)
  (subs : list client) :
  forall w,
    apps_created
      (fold_left (fun w c => fst (frameHandler c (wf c) d w)) subs w)
    = apps_created w.
Proof.
  induction subs as [| c r IH]; intros w; [reflexivity |].
  cbn [fold_left]. rewrite IH. unfold frameHandler. destruct (wf c); reflexivity.
Qed.

(** Only [start()] and [register] touch the binding of the server:
    [register] sets the application, and [start()] creates one, at most,
    when there is none. *)
Lemma step_binding (o : op) (w : World) :
  let n := apps_created w in
  let w' := fst (step o w) in
  match o with
  | Register a _ => binding w' = (n, listening w, a)
  | Start _ =>
      match server_app (LiveStream.server (self w)) with
      | Some _ => binding w' = binding w
      | None =>
          binding w' = binding w
          \/ binding w' = (S n, listening w, Some (OwnApp n))
          \/ binding w'
             = (S n,
                (listening w
                 ++ [(OwnApp n, server_port (LiveStream.server (self w)))])%list,
                Some (OwnApp n))
      end
  | _ => binding w' = binding w
  end.
Proof.
  cbv zeta. unfold binding.
  destruct o; cbn [step]; unfold lift_setter, lift_promise; cbn [fst];
    try reflexivity.
  - unfold LiveStream.setWidth. split_ifs; reflexivity.
  - unfold LiveStream.setHeight. split_ifs; reflexivity.
  - unfold LiveStream.setFPS. split_ifs; reflexivity.
  - unfold LiveStream.setEncoding. split_ifs; reflexivity.
  - unfold LiveStream.setQuality. split_ifs; reflexivity.
  - destruct (LiveStream.getLastFrame (self w)); reflexivity.
  - unfold start, initialize, listen.
    destruct w as [[cam [ap port] cfg mime path lf vb [st pa sp]]
                     gl n li ro sr su wr cc].
    destruct env as [rq ex li' ca]. cbn.
    destruct sp, rq, ap, ex, li', ca; cbn; auto.
  - unfold pause. destruct cb; split_ifs; reflexivity.
  - unfold resume. destruct cb; split_ifs; reflexivity.
  - unfold stop. destruct cb; split_ifs; reflexivity.
  - unfold request, handle_request. split_ifs; reflexivity.
  - destruct (emit_frame_rest frameData write_fails w) as (_ & _ & _ & _ & L & _).
    cbv zeta in L. rewrite L, emit_frame_self.
    unfold emit_frame. rewrite fold_frameHandler_apps.
    destruct (subscribers w); reflexivity.
Qed.

(** While the controller is bound to an application, and [register] is
    not called with null, it creates no application and calls [listen] on
    none: a registered server is left to its owner. *)
Theorem registered_server_is_not_listened (ops : list op) (w : World) :
  server_app (LiveStream.server (self w)) <> None ->
  forallb (fun o => negb (is_null_register o)) ops = true ->
  listening (run ops w) = listening w
  /\ apps_created (run ops w) = apps_created w
  /\ server_app (LiveStream.server (self (run ops w))) <> None.
Proof.
  revert w. induction ops as [| o r IH]; intros w Hw Hops; [auto |].
  cbn [forallb] in Hops. apply andb_true_iff in Hops as [Ho Hr].
  apply negb_true_iff in Ho. cbn [run].
  pose proof (step_binding o w) as B. cbv zeta in B.
  assert (S : binding (fst (step o w))
              = (apps_created w, listening w,
                 server_app (LiveStream.server (self (fst (step o w)))))
              /\ server_app (LiveStream.server (self (fst (step o w)))) <> None).
  { assert (Same : binding (fst (step o w)) = binding w ->
                   binding (fst (step o w))
                   = (apps_created w, listening w,
                      server_app (LiveStream.server (self (fst (step o w)))))
                   /\ server_app (LiveStream.server (self (fst (step o w))))
                      <> None).
    { intros E. pose proof (f_equal snd E) as E3. cbn in E3. rewrite E3.
      split; [exact E | exact Hw]. }
    destruct o; try (apply Same; exact B).
    - destruct a; [| discriminate Ho].
      split; [exact B | cbn; discriminate].
    - destruct (server_app (LiveStream.server (self w))); [| contradiction].
      apply Same; exact B. }
  destruct S as (E & N). destruct (IH _ N Hr) as (L' & A' & N').
  pose proof (f_equal (fun t => snd (fst t)) E) as L.
  pose proof (f_equal (fun t => fst (fst t)) E) as A.
  cbn in L, A. repeat split; [congruence | congruence | exact N'].
Qed.

Lemma registered_server_example :
  let w :=
    fst (step (Register (Some (ExternalApp 7)) (VNum (Int 8080)))
           (boot node_globals LiveStream.default_config)) in
  let ops :=
    [Start ok_env; Request (ExternalApp 7) "/live.stream" 1%nat "pi";
     Stop Completes; Register (Some (ExternalApp 8)) VUndefined] in
  listening (run ops w) = []
  /\ apps_created (run ops w) = 0%nat.
Proof.
  pose proof (registered_server_is_not_listened
                [Start ok_env; Request (ExternalApp 7) "/live.stream" 1%nat "pi";
                 Stop Completes; Register (Some (ExternalApp 8)) VUndefined]
                (fst (step (Register (Some (ExternalApp 7)) (VNum (Int 8080)))
                        (boot node_globals LiveStream.default_config)))
                ltac:(discriminate) eq_refl) as (L & A & _).
  split; [exact L | exact A].
Defined.

Lemma step_own_server (o : op) (w : World) :
  is_register o = false ->
  own_server_invariant w -> own_server_invariant (fst (step o w)).
Proof.
  intros Ho (H1 & H2 & H3).
  pose proof (step_binding o w) as B. cbv zeta in B.
  assert (K : forall b,
             binding (fst (step o w)) = b ->
             (fst (fst b) <= 1)%nat
             /\ (List.length (snd (fst b)) <= fst (fst b))%nat
             /\ (snd b = None -> fst (fst b) = 0%nat) ->
             own_server_invariant (fst (step o w))).
  { intros b <-. exact (fun H => H). }
  assert (Same : binding (fst (step o w)) = binding w ->
                 own_server_invariant (fst (step o w))).
  { intros E. apply (K _ E). cbn. auto. }
  destruct o; try discriminate Ho; try (apply Same; exact B).
  destruct (server_app (LiveStream.server (self w))) eqn:E;
    [apply Same; exact B |].
  specialize (H3 eq_refl).
  destruct B as [B | [B | B]]; [apply Same; exact B | |];
    apply (K _ B); cbn; rewrite H3 in *; rewrite ?length_app; cbn;
    repeat split; try lia; discriminate.
Qed.

(** A controller on which [register] is never called creates at most one
    application of its own and calls [listen] at most once, however often
    it is started. *)
Theorem own_server_is_created_once
  (g : global_object) (c : Config) (ops : list op) :
  forallb (fun o => negb (is_register o)) ops = true ->
  (apps_created (run ops (boot g c)) <= 1)%nat
  /\ (List.length (listening (run ops (boot g c))) <= 1)%nat.
Proof.
  intros H.
  assert (G : forall ops w,
             forallb (fun o => negb (is_register o)) ops = true ->
             own_server_invariant w -> own_server_invariant (run ops w)).
  { clear. induction ops as [| o r IH]; intros w Hops Hw; [exact Hw |].
    cbn [forallb] in Hops. apply andb_true_iff in Hops as [Ho Hr].
    apply negb_true_iff in Ho. cbn [run].
    apply IH; [exact Hr | apply step_own_server; assumption]. }
  destruct (G ops (boot g c) H) as (A & L & _).
  - unfold own_server_invariant. cbn. repeat split; lia.
  - split; lia.
Qed.

Lemma own_server_example :
  let w :=
    run [Start ok_env; Start ok_env; Pause Completes; Start ok_env]
        (boot node_globals LiveStream.default_config) in
  (apps_created w <= 1)%nat /\ (List.length (listening w) <= 1)%nat.
Proof.
  exact (own_server_is_created_once node_globals LiveStream.default_config
           [Start ok_env; Start ok_env; Pause Completes; Start ok_env]
           eq_refl).
Defined.

(* ================================================================== *)
(** * The base64 text of a snapshot *)
(* ================================================================== *)

Lemma bytes_ind3 (P : bytes -> Prop) :
  P [] ->
  (forall a, P [a]) ->
  (forall a b, P [a; b]) ->
  (forall a b c r, P r -> P (a :: b :: c :: r)) ->
  forall l, P l.
Proof.
  intros H0 H1 H2 H3 l.
  assert (G : P l /\ (forall a, P (a :: l)) /\ (forall a b, P (a :: b :: l))).
  { induction l as [| x l (A & B & C)]; [auto |].
    split; [apply B |]. split; [intros a; apply C |].
    intros a b. apply H3, A. }
  exact (proj1 G).
Qed.

Lemma byte_val_range (b : byte) : 0 <= LiveStream.byte_val b < 256.
Proof.
  unfold LiveStream.byte_val. pose proof (Byte.to_N_bounded b). lia.
Qed.

Lemma byte_of_byte_val (b : byte) : byte_of (LiveStream.byte_val b) = b.
Proof.
  unfold byte_of, LiveStream.byte_val. rewrite N2Z.id, Byte.of_to_N. reflexivity.
Qed.

Lemma land_shiftl_low (hi lo k : Z) :
  0 <= k -> 0 <= lo < 2 ^ k -> Z.land (Z.shiftl hi k) lo = 0.
Proof.
  intros Hk Hlo. apply Z.bits_inj'. intros i Hi.
  rewrite Z.land_spec, Z.bits_0.
  destruct (Z.lt_ge_cases i k) as [L | G].
  - rewrite Z.shiftl_spec_low by assumption. reflexivity.
  - assert (T : Z.testbit lo i = false).
    { destruct (Z.eq_dec lo 0) as [-> | N]; [apply Z.bits_0 |].
      apply Z.bits_above_log2; [lia |].
      apply Z.log2_lt_pow2; [lia |].
      apply Z.lt_le_trans with (2 ^ k); [lia |].
      apply Z.pow_le_mono_r; lia. }
    rewrite T. apply andb_false_r.
Qed.

(** Joining a shifted value and a smaller one adds them. *)
Lemma lor_shiftl_low (hi lo k : Z) :
  0 <= k -> 0 <= lo < 2 ^ k -> Z.lor (Z.shiftl hi k) lo = hi * 2 ^ k + lo.
Proof.
  intros Hk Hlo.
  pose proof (Z.add_lor_land (Z.shiftl hi k) lo) as E.
  rewrite (land_shiftl_low hi lo k Hk Hlo), Z.add_0_r in E.
  rewrite E, Z.shiftl_mul_pow2 by assumption. reflexivity.
Qed.

Lemma sextet (n k : Z) : 0 <= k -> Z.land (Z.shiftr n k) 63 = n / 2 ^ k mod 64.
Proof.
  intros Hk. change 63 with (Z.ones 6).
  rewrite Z.land_ones by lia. rewrite Z.shiftr_div_pow2 by assumption.
  reflexivity.
Qed.

Lemma sextet_low (n : Z) : Z.land n 63 = n mod 64.
Proof. change 63 with (Z.ones 6). rewrite Z.land_ones by lia. reflexivity. Qed.

Lemma alphabet_checked :
  forallb
    (fun i =>
       let c := LiveStream.base64_char (Z.of_nat i) in
       is_base64_char c && (base64_value c =? Z.of_nat i)
       && negb (Ascii.eqb c "="))
    (seq 0 64) = true.
Proof. vm_compute. reflexivity. Qed.

(** The sixty-four characters of the alphabet are distinct from each other
    and from the padding. *)
Lemma base64_char_spec (i : Z) :
  0 <= i < 64 ->
  is_base64_char (LiveStream.base64_char i) = true
  /\ base64_value (LiveStream.base64_char i) = i
  /\ Ascii.eqb (LiveStream.base64_char i) "=" = false.
Proof.
  intros H. pose proof alphabet_checked as A.
  rewrite forallb_forall in A. specialize (A (Z.to_nat i)).
  rewrite Z2Nat.id in A by lia. cbv zeta in A.
  assert (I : In (Z.to_nat i) (seq 0 64)) by (apply in_seq; lia).
  apply A in I. apply andb_true_iff in I as [I N].
  apply andb_true_iff in I as [I V].
  apply Z.eqb_eq in V. apply negb_true_iff in N. auto.
Qed.

Lemma mod64_range (x : Z) : 0 <= x mod 64 < 64.
Proof. apply Z.mod_pos_bound. lia. Qed.

(** The three shapes of the last quadruple, in arithmetic. *)
Lemma base64_three (a b c : byte) (r : bytes) :
  LiveStream.base64 (a :: b :: c :: r)
  = let n := LiveStream.byte_val a * 65536 + LiveStream.byte_val b * 256 + LiveStream.byte_val c in
    String (LiveStream.base64_char (n / 2 ^ 18 mod 64))
      (String (LiveStream.base64_char (n / 2 ^ 12 mod 64))
         (String (LiveStream.base64_char (n / 2 ^ 6 mod 64))
            (String (LiveStream.base64_char (n mod 64)) (LiveStream.base64 r)))).
Proof.
  pose proof (byte_val_range a). pose proof (byte_val_range b).
  pose proof (byte_val_range c).
  cbn [LiveStream.base64]. cbv zeta.
  rewrite !sextet, sextet_low by lia.
  rewrite (lor_shiftl_low (LiveStream.byte_val a) _ 16) by (rewrite ?Z.shiftl_mul_pow2 by lia; lia).
  rewrite Z.shiftl_mul_pow2 by lia.
  rewrite Z.lor_comm.
  replace (LiveStream.byte_val a * 2 ^ 16 + LiveStream.byte_val b * 2 ^ 8)
    with (Z.shiftl (LiveStream.byte_val a * 256 + LiveStream.byte_val b) 8)
    by (rewrite ?Z.shiftl_mul_pow2 by lia; lia).
  rewrite Z.lor_comm, (lor_shiftl_low _ (LiveStream.byte_val c) 8) by lia.
  replace ((LiveStream.byte_val a * 256 + LiveStream.byte_val b) * 2 ^ 8 + LiveStream.byte_val c)
    with (LiveStream.byte_val a * 65536 + LiveStream.byte_val b * 256 + LiveStream.byte_val c) by lia.
  reflexivity.
Qed.

Lemma base64_two (a b : byte) :
  LiveStream.base64 [a; b]
  = let n := LiveStream.byte_val a * 65536 + LiveStream.byte_val b * 256 in
    String (LiveStream.base64_char (n / 2 ^ 18 mod 64))
      (String (LiveStream.base64_char (n / 2 ^ 12 mod 64))
         (String (LiveStream.base64_char (n / 2 ^ 6 mod 64)) "=")).
Proof.
  pose proof (byte_val_range a). pose proof (byte_val_range b).
  cbn [LiveStream.base64]. cbv zeta.
  rewrite !sextet by lia.
  rewrite (lor_shiftl_low (LiveStream.byte_val a) _ 16) by (rewrite ?Z.shiftl_mul_pow2 by lia; lia).
  rewrite Z.shiftl_mul_pow2 by lia.
  replace (LiveStream.byte_val a * 2 ^ 16 + LiveStream.byte_val b * 2 ^ 8)
    with (LiveStream.byte_val a * 65536 + LiveStream.byte_val b * 256) by lia.
  reflexivity.
Qed.

Lemma base64_one (a : byte) :
  LiveStream.base64 [a]
  = let n := LiveStream.byte_val a * 65536 in
    String (LiveStream.base64_char (n / 2 ^ 18 mod 64))
      (String (LiveStream.base64_char (n / 2 ^ 12 mod 64)) "==").
Proof.
  cbn [LiveStream.base64]. cbv zeta.
  rewrite !sextet, Z.shiftl_mul_pow2 by lia. reflexivity.
Qed.

Ltac byte_read :=
  match goal with
  | |- byte_of ?x = ?a =>
      transitivity (byte_of (LiveStream.byte_val a));
      [f_equal | apply byte_of_byte_val]
  end.

(** Reading back what [base64] wrote gives the bytes. *)
Lemma base64_read_base64 (l : bytes) : base64_read (LiveStream.base64 l) = l.
Proof.
  induction l as [| a | a b | a b c r IH] using bytes_ind3.
  - reflexivity.
  - rewrite base64_one. cbv zeta. pose proof (byte_val_range a).
    set (n := LiveStream.byte_val a * 65536).
    cbn [base64_read]. change (Ascii.eqb "=" "=") with true. cbv iota.
    destruct (base64_char_spec _ (mod64_range (n / 2 ^ 18))) as (_ & -> & _).
    destruct (base64_char_spec _ (mod64_range (n / 2 ^ 12))) as (_ & -> & _).
    change (2 ^ 18) with 262144. change (2 ^ 12) with 4096.
    change (2 ^ 16) with 65536.
    f_equal. byte_read. subst n. Z.div_mod_to_equations. lia.
  - rewrite base64_two. cbv zeta.
    pose proof (byte_val_range a). pose proof (byte_val_range b).
    set (n := LiveStream.byte_val a * 65536 + LiveStream.byte_val b * 256).
    cbn [base64_read].
    destruct (base64_char_spec _ (mod64_range (n / 2 ^ 18))) as (_ & -> & _).
    destruct (base64_char_spec _ (mod64_range (n / 2 ^ 12))) as (_ & -> & _).
    destruct (base64_char_spec _ (mod64_range (n / 2 ^ 6))) as (_ & -> & ->).
    change (Ascii.eqb "=" "=") with true. cbv iota.
    change (2 ^ 18) with 262144. change (2 ^ 12) with 4096.
    change (2 ^ 16) with 65536. change (2 ^ 6) with 64. change (2 ^ 8) with 256.
    f_equal; [| f_equal]; byte_read; subst n; Z.div_mod_to_equations; lia.
  - rewrite base64_three. cbv zeta.
    pose proof (byte_val_range a). pose proof (byte_val_range b).
    pose proof (byte_val_range c).
    set (n := LiveStream.byte_val a * 65536 + LiveStream.byte_val b * 256
              + LiveStream.byte_val c).
    cbn [base64_read].
    destruct (base64_char_spec _ (mod64_range (n / 2 ^ 18))) as (_ & -> & _).
    destruct (base64_char_spec _ (mod64_range (n / 2 ^ 12))) as (_ & -> & _).
    destruct (base64_char_spec _ (mod64_range (n / 2 ^ 6))) as (_ & -> & ->).
    destruct (base64_char_spec _ (mod64_range n)) as (_ & -> & ->).
    rewrite IH.
    change (2 ^ 18) with 262144. change (2 ^ 12) with 4096.
    change (2 ^ 16) with 65536. change (2 ^ 6) with 64. change (2 ^ 8) with 256.
    f_equal; [| f_equal; [| f_equal]]; byte_read; subst n;
      Z.div_mod_to_equations; lia.
Qed.

(** The base64 text that [getSnapshot()] puts into the data URI tells the
    frames apart: two frames have the same text only if they are the same
    bytes. *)
Theorem base64_tells_frames_apart (l l' : bytes) :
  LiveStream.base64 l = LiveStream.base64 l' <-> l = l'.
Proof.
  split; [| intros ->; reflexivity].
  intros H. rewrite <- (base64_read_base64 l), <- (base64_read_base64 l'), H.
  reflexivity.
Qed.

(** The base64 text of a frame of [n] bytes has four characters for every
    three bytes, the last group padded: [4 * ceil (n / 3)] characters, all
    of them of the base64 alphabet or the padding character. *)
Theorem base64_length_and_alphabet (l : bytes) :
  String.length (LiveStream.base64 l) = (4 * ((List.length l + 2) / 3))%nat
  /\ all_chars (fun c => is_base64_char c || Ascii.eqb c "=")
       (LiveStream.base64 l) = true.
Proof.
  induction l as [| a | a b | a b c r (IHl & IHc)] using bytes_ind3.
  - split; reflexivity.
  - rewrite base64_one. cbv zeta. cbn [String.length all_chars].
    destruct (base64_char_spec _ (mod64_range (LiveStream.byte_val a * 65536 / 2 ^ 18)))
      as (-> & _).
    destruct (base64_char_spec _ (mod64_range (LiveStream.byte_val a * 65536 / 2 ^ 12)))
      as (-> & _).
    split; reflexivity.
  - rewrite base64_two. cbv zeta. cbn [String.length all_chars].
    set (n := LiveStream.byte_val a * 65536 + LiveStream.byte_val b * 256).
    destruct (base64_char_spec _ (mod64_range (n / 2 ^ 18))) as (-> & _).
    destruct (base64_char_spec _ (mod64_range (n / 2 ^ 12))) as (-> & _).
    destruct (base64_char_spec _ (mod64_range (n / 2 ^ 6))) as (-> & _).
    split; reflexivity.
  - rewrite base64_three. cbv zeta. cbn [String.length all_chars].
    set (n := LiveStream.byte_val a * 65536 + LiveStream.byte_val b * 256
              + LiveStream.byte_val c).
    destruct (base64_char_spec _ (mod64_range (n / 2 ^ 18))) as (-> & _).
    destruct (base64_char_spec _ (mod64_range (n / 2 ^ 12))) as (-> & _).
    destruct (base64_char_spec _ (mod64_range (n / 2 ^ 6))) as (-> & _).
    destruct (base64_char_spec _ (mod64_range n)) as (-> & _).
    rewrite IHl, IHc. split; [| reflexivity].
    cbn [List.length].
    replace (S (S (S (List.length r))) + 2)%nat
      with ((List.length r + 2) + 1 * 3)%nat by lia.
    rewrite Nat.div_add by lia. lia.
Qed.

(* ================================================================== *)
(** * The last frame over a run *)
(* ================================================================== *)

Lemma step_keeps_lastFrame (o : op) (w : World) :
  is_frame o = false ->
  LiveStream.lastFrame (self (fst (step o w))) = LiveStream.lastFrame (self w).
Proof.
  intros Ho. destruct (is_lifecycle_op o) eqn:Hl.
  - destruct (step_lifecycle_rest o w Hl) as (_ & _ & _ & L & _). exact L.
  - destruct o; try discriminate Ho; try discriminate Hl; cbn [step];
      unfold lift_setter, lift_promise; cbn [fst]; try reflexivity.
    + unfold LiveStream.setWidth. split_ifs; reflexivity.
    + unfold LiveStream.setHeight. split_ifs; reflexivity.
    + unfold LiveStream.setFPS. split_ifs; reflexivity.
    + unfold LiveStream.setEncoding. split_ifs; reflexivity.
    + unfold LiveStream.setQuality. split_ifs; reflexivity.
    + destruct (LiveStream.getLastFrame (self w)); reflexivity.
    + unfold request, handle_request. split_ifs; reflexivity.
Qed.

(** The last frame is written by frames only.  After a frame that found a
    subscriber, and until the next frame, the last frame is that frame
    whatever is done: pausing, stopping, setters, requests and
    disconnections leave it, and [getLastFrame()] returns it while the
    started flag is set. *)
Theorem last_frame_stays
  (d : bytes) (wf : client -> bool) (ops : list op) (w : World) :
  subscribers w <> [] ->
  forallb (fun o => negb (is_frame o)) ops = true ->
  let w' := run ops (fst (step (Frame d wf) w)) in
  LiveStream.lastFrame (self w') = Some d
  /\ LiveStream.getLastFrame (self w')
     = (if started (LiveStream.streamStatus (self w')) then Ok (Some d)
        else Throw (Error LiveStream.last_frame_message)).
Proof.
  intros Hs Hops w'.
  assert (G : forall ops v,
             forallb (fun o => negb (is_frame o)) ops = true ->
             LiveStream.lastFrame (self (run ops v))
             = LiveStream.lastFrame (self v)).
  { clear. induction ops as [| o r IH]; intros v H; [reflexivity |].
    cbn [forallb] in H. apply andb_true_iff in H as [Ho Hr].
    apply negb_true_iff in Ho. cbn [run].
    rewrite (IH _ Hr). apply step_keeps_lastFrame, Ho. }
  assert (L : LiveStream.lastFrame (self w') = Some d).
  { unfold w'. rewrite (G _ _ Hops). cbn [step fst]. rewrite emit_frame_self.
    destruct (subscribers w); [contradiction | reflexivity]. }
  split; [exact L |].
  unfold LiveStream.getLastFrame. rewrite L.
  destruct (started (LiveStream.streamStatus (self w'))); reflexivity.
Qed.

Lemma last_frame_stays_example :
  let w :=
    run [Start ok_env; Request (OwnApp 0) "/live.stream" 1%nat "pi"]
        (boot node_globals LiveStream.default_config) in
  let ops :=
    [Close 1%nat; Pause Completes; SetFPS (VNum (Int 30)); Stop Completes] in
  let w' := run ops (fst (step (Frame [xff; xd8] (fun _ => true)) w)) in
  LiveStream.lastFrame (self w') = Some [xff; xd8]
  /\ LiveStream.getLastFrame (self w')
     = (if started (LiveStream.streamStatus (self w')) then Ok (Some [xff; xd8])
        else Throw (Error LiveStream.last_frame_message)).
Proof.
  exact (last_frame_stays [xff; xd8] (fun _ => true)
           [Close 1%nat; Pause Completes; SetFPS (VNum (Int 30));
            Stop Completes]
           (run [Start ok_env; Request (OwnApp 0) "/live.stream" 1%nat "pi"]
                (boot node_globals LiveStream.default_config))
           ltac:(vm_compute; discriminate) eq_refl).
Defined.

(* ================================================================== *)
(** * From the configuration to the stream *)
(* ================================================================== *)



